(** * Law: the statute structuring engine of [lii_processor.py]

    A shallow embedding of [cn_to_int] and of
    [LegalStructureEngine.parse_and_store] / [_save_node], together with the
    properties of the reconstruction pass.

    Modelling conventions.
    - A Python [str] is a sequence of Unicode code points: [list N].
      Literals are written as UTF-8 byte strings and decoded by [u].
    - The integers the engine builds (chapter and article ordinals) are
      unbounded and never negative: [N].
    - The two PostgreSQL tables are finite maps keyed by their conflict
      target: [legal_nodes] by [uri], [legal_metadata] by [doc_id].
    - The block stream delivered by the layout converter is an input: a list
      of items, each with an optional text.
    - Every SQL statement succeeds: storage failures, and the limits
      PostgreSQL and the Python runtime put on column values and on the
      length of a decimal numeral, are outside the model; so is [print]. *)

From Stdlib Require Import NArith List Ascii String Lia DecimalN.
From stdpp Require Import base option list gmap.

Local Open Scope N_scope.

(** ** Python strings *)

Module PyStr.

Abbreviation char := N (only parsing).
Abbreviation str := (list N) (only parsing).

Fixpoint bytes_of (s : string) : list N :=
  match s with
  | EmptyString => []
  | String a s' => N_of_ascii a :: bytes_of s'
  end.

(** UTF-8 decoding of well-formed input (one to four bytes per code point);
    a truncated trailing sequence is dropped. *)
Fixpoint utf8_decode (bs : list N) : str :=
  match bs with
  | [] => []
  | b0 :: r0 =>
    if b0 <? 128 then b0 :: utf8_decode r0
    else if b0 <? 224 then
      match r0 with
      | b1 :: r1 => ((b0 - 192) * 64 + (b1 - 128)) :: utf8_decode r1
      | _ => []
      end
    else if b0 <? 240 then
      match r0 with
      | b1 :: b2 :: r2 =>
        ((b0 - 224) * 4096 + (b1 - 128) * 64 + (b2 - 128)) :: utf8_decode r2
      | _ => []
      end
    else
      match r0 with
      | b1 :: b2 :: b3 :: r3 =>
        ((b0 - 240) * 262144 + (b1 - 128) * 4096 + (b2 - 128) * 64 + (b3 - 128))
          :: utf8_decode r3
      | _ => []
      end
  end.

Definition u (s : string) : str := utf8_decode (bytes_of s).

(** The single character of a one-character literal. *)
Definition ch (s : string) : char := hd 0 (u s).

(** Concatenation, written [+] in the source and implicit in f-strings. *)
Infix "+++" := (@app N) (at level 60, right associativity).

(** [str.isspace] of one character, which is also the regex class [\s]:
    the code points Python's Unicode database marks as whitespace. *)
Definition isspace (c : char) : bool :=
  ((9 <=? c) && (c <=? 13)) || ((28 <=? c) && (c <=? 32))
  || (c =? 133) || (c =? 160) || (c =? 5760)
  || ((8192 <=? c) && (c <=? 8202))
  || (c =? 8232) || (c =? 8233) || (c =? 8239) || (c =? 8287) || (c =? 12288).

Fixpoint dropwhile (p : char -> bool) (s : str) : str :=
  match s with
  | [] => []
  | c :: s' => if p c then dropwhile p s' else s
  end.

Fixpoint takewhile (p : char -> bool) (s : str) : str :=
  match s with
  | [] => []
  | c :: s' => if p c then c :: takewhile p s' else []
  end.

Definition lstrip (s : str) : str := dropwhile isspace s.
Definition rstrip (s : str) : str := rev (dropwhile isspace (rev s)).

(** [s.strip()] *)
Definition strip (s : str) : str := rstrip (lstrip s).

(** [s.startswith(p)] *)
Fixpoint startswith (p s : str) : bool :=
  match p, s with
  | [], _ => true
  | _ :: _, [] => false
  | a :: p', b :: s' => (a =? b) && startswith p' s'
  end.

(** [p in s] *)
Fixpoint contains (p s : str) : bool :=
  startswith p s ||
  match s with
  | [] => false
  | _ :: s' => contains p s'
  end.

(** [s.replace(c, '')] for a one-character [c] *)
Definition remove_char (c : char) (s : str) : str :=
  List.filter (fun x => negb (x =? c)) s.

(** [0-9] *)
Definition is_ascii_digit (c : char) : bool := (48 <=? c) && (c <=? 57).

(** [s.isdigit()], as it behaves on the strings the article pattern can
    capture: of the characters of the class [0-9一二三四五六七八九十百] Python
    counts only the ASCII digits as digits. *)
Definition isdigit (s : str) : bool :=
  match s with
  | [] => false
  | _ :: _ => forallb is_ascii_digit s
  end.

(** [int(s)] on a string of ASCII digits *)
Definition int (s : str) : N :=
  fold_left (fun acc c => acc * 10 + (c - 48)) s 0.

Fixpoint uint_chars (d : Decimal.uint) : str :=
  match d with
  | Decimal.Nil => []
  | Decimal.D0 d' => 48 :: uint_chars d'
  | Decimal.D1 d' => 49 :: uint_chars d'
  | Decimal.D2 d' => 50 :: uint_chars d'
  | Decimal.D3 d' => 51 :: uint_chars d'
  | Decimal.D4 d' => 52 :: uint_chars d'
  | Decimal.D5 d' => 53 :: uint_chars d'
  | Decimal.D6 d' => 54 :: uint_chars d'
  | Decimal.D7 d' => 55 :: uint_chars d'
  | Decimal.D8 d' => 56 :: uint_chars d'
  | Decimal.D9 d' => 57 :: uint_chars d'
  end.

(** [str(n)], the decimal rendering an f-string gives an integer field *)
Definition str_of_int (n : N) : str := uint_chars (N.to_uint n).

(** ASCII-only [str.lower] and [0-9]-only [\d], used to run the engine on
    concrete ASCII document identifiers. *)
Definition ascii_lower (s : str) : str :=
  map (fun c => if (65 <=? c) && (c <=? 90) then c + 32 else c) s.

End PyStr.
Import PyStr.

(** ** 1. The numeral normalizer *)

Definition BAI : char := Eval vm_compute in ch "百".
Definition SHI : char := Eval vm_compute in ch "十".

(** [CN_NUM], the digit table (a dict in the source, in source order). *)
Definition CN_NUM : list (char * N) := Eval vm_compute in
  [ (ch "零", 0); (ch "一", 1); (ch "二", 2); (ch "三", 3); (ch "四", 4);
    (ch "五", 5); (ch "六", 6); (ch "七", 7); (ch "八", 8); (ch "九", 9);
    (ch "十", 10) ].

(** [d.get(k, default)] *)
Fixpoint dict_get (d : list (char * N)) (k : char) (default : N) : N :=
  match d with
  | [] => default
  | (k', v) :: d' => if k' =? k then v else dict_get d' k default
  end.

(** The body of the [for char in cn] loop on the pair [(res, temp)]. *)
Definition cn_loop_body (acc : N * N) (char : char) : N * N :=
  let '(res, temp) := acc in
  if char =? BAI then (res + (if temp =? 0 then 1 else temp) * 100, 0)
  else if char =? SHI then (res + (if temp =? 0 then 1 else temp) * 10, 0)
  else (res, dict_get CN_NUM char 0).

(** [cn_to_int(cn)]; [None] is Python's [None]. *)
Definition cn_to_int (cn : option str) : N :=
  match cn with
  | None | Some [] => 0
  | Some s => let '(res, temp) := fold_left cn_loop_body s (0, 0) in res + temp
  end.

(** *** The normalizer as the specification words it

    The contract is for strings over the digits [零..九] and the markers
    [十], [百]; [normalize_scan] is the scan of the specification (a running
    total and a pending digit) and is undefined on any other character.
    [numeral] writes an integer below 1000 the way it is read. *)

Definition cn_digits : str := Eval vm_compute in u "零一二三四五六七八九".

Fixpoint index_of (c : char) (l : str) (i : N) : option N :=
  match l with
  | [] => None
  | x :: l' => if x =? c then Some i else index_of c l' (i + 1)
  end.

Definition digit_value (c : char) : option N := index_of c cn_digits 0.

Definition alphabet : str := Eval vm_compute in u "零一二三四五六七八九十百".

Definition in_alphabet (c : char) : bool := existsb (N.eqb c) alphabet.

Fixpoint normalize_scan (total pending : N) (s : str) : option N :=
  match s with
  | [] => Some (total + pending)
  | c :: s' =>
    if c =? BAI then
      normalize_scan (total + (if pending =? 0 then 1 else pending) * 100) 0 s'
    else if c =? SHI then
      normalize_scan (total + (if pending =? 0 then 1 else pending) * 10) 0 s'
    else
      match digit_value c with
      | Some d => normalize_scan total d s'
      | None => None
      end
  end.

Definition cn_digit (d : N) : str :=
  match nth_error cn_digits (N.to_nat d) with
  | Some c => [c]
  | None => []
  end.

Definition numeral (n : N) : str :=
  let h := n / 100 in
  let t := (n / 10) mod 10 in
  let o := n mod 10 in
  if n =? 0 then u "零"
  else
    (if h =? 0 then [] else cn_digit h +++ u "百")
    +++ (if t =? 0 then (if negb (h =? 0) && negb (o =? 0) then u "零" else [])
         else (if (t =? 1) && (h =? 0) then [] else cn_digit t) +++ u "十")
    +++ (if o =? 0 then [] else cn_digit o).

(** ** 2. The storage collaborator: the two tables *)

(** A row of [legal_nodes]; the primary key [uri] is the key of the map. *)
Record node := mk_node {
  doc_id : str;
  label : str;
  num_val : N;
  content : str;
  parent_uri : option str
}.

(** A row of [legal_metadata]; [doc_id] is the key of the map. *)
Record meta_row := mk_meta {
  title : str;
  creator : str;
  pub_date : str
}.

(** The [metadata] dict handed to [parse_and_store]. *)
Record metadata := mk_metadata {
  md_title : str;
  md_creator : str;
  md_date : str
}.

Record database := mk_db {
  legal_nodes : gmap (list N) node;
  legal_metadata : gmap (list N) meta_row
}.

Definition empty_db : database := mk_db ∅ ∅.

(** [INSERT INTO legal_metadata ... ON CONFLICT (doc_id) DO UPDATE
     SET title = EXCLUDED.title] *)
Definition upsert_metadata (db : database) (doc : str) (md : metadata) : database :=
  let row :=
    match legal_metadata db !! doc with
    | None => mk_meta (md_title md) (md_creator md) (md_date md)
    | Some old => mk_meta (md_title md) (creator old) (pub_date old)
    end in
  mk_db (legal_nodes db) (<[doc := row]> (legal_metadata db)).

(** [_save_node]: [INSERT INTO legal_nodes ... ON CONFLICT (uri) DO UPDATE
     SET content, parent_uri, label = EXCLUDED....] *)
Definition _save_node (db : database) (doc uri lbl : str) (num : N)
    (cont : str) (parent : option str) : database :=
  let row :=
    match legal_nodes db !! uri with
    | None => mk_node doc lbl num cont parent
    | Some old => mk_node (doc_id old) lbl (num_val old) cont parent
    end in
  mk_db (<[uri := row]> (legal_nodes db)) (legal_metadata db).

(** [UPDATE legal_nodes SET content = content || frag WHERE uri = uri] *)
Definition append_content (db : database) (frag uri : str) : database :=
  mk_db (alter (fun n => mk_node (doc_id n) (label n) (num_val n)
                                 (content n +++ frag) (parent_uri n))
               uri (legal_nodes db))
        (legal_metadata db).

(** ** 3. The structural reconstruction engine *)

Definition DI : char := Eval vm_compute in ch "第".
Definition ZHANG : char := Eval vm_compute in ch "章".
Definition TIAO : char := Eval vm_compute in ch "条".
Definition YE : char := Eval vm_compute in ch "页".
Definition NL : char := 10.
Definition SP : char := 32.
Definition DASH : char := 45.

(** The character class [一二三四五六七八九十百] *)
Definition cn_class_chars : str := Eval vm_compute in u "一二三四五六七八九十百".

Definition cn_class (c : char) : bool := existsb (N.eqb c) cn_class_chars.

(** The character class [0-9一二三四五六七八九十百] *)
Definition num_class (c : char) : bool := is_ascii_digit c || cn_class c.

(** [re.match] of [^第(CLS+)CLOSER]: the captured group, when the text begins
    with the marker. The closing character is outside the class, so the
    greedy run of class characters is the only candidate for the group. *)
Definition match_header (cls : char -> bool) (closer : char) (text : str)
    : option str :=
  match text with
  | c :: rest =>
    if c =? DI then
      match takewhile cls rest, dropwhile cls rest with
      | g0 :: g, d :: _ => if d =? closer then Some (g0 :: g) else None
      | _, _ => None
      end
    else None
  | [] => None
  end.

(** [re.match(r'^第([一二三四五六七八九十百]+)章', text)], group 1 *)
Definition c_match (text : str) : option str := match_header cn_class ZHANG text.

(** [re.match(r'^第([0-9一二三四五六七八九十百]+)条', text)], group 1 *)
Definition a_match (text : str) : option str := match_header num_class TIAO text.

(** [re.search(r'[\s\n]+(第[0-9一二三四五六七八九十百]+条)', text)], as the start
    index of the leftmost match: a whitespace character whose whitespace run
    is followed by an article marker. *)
Fixpoint section_split (text : str) : option nat :=
  match text with
  | [] => None
  | c :: rest =>
    if isspace c && bool_decide (is_Some (a_match (lstrip rest))) then Some 0%nat
    else S <$> section_split rest
  end.

(** [.*CLOSER] at the head of [s]; [.] is any character but a newline. *)
Fixpoint dot_star_then (closer : char) (s : str) : bool :=
  match s with
  | [] => false
  | x :: s' => (x =? closer) || (negb (x =? NL) && dot_star_then closer s')
  end.

Module Engine.
Section WithTables.

(** Two tables of the Unicode database are left abstract: [str.lower] and
    the regex class [\d]. *)
Variable lower : str -> str.
Variable isdecimal : char -> bool.

(** [\s*-] at the head of [s] *)
Fixpoint ws_dash (s : str) : bool :=
  match s with
  | [] => false
  | x :: s' => (x =? DASH) || (isspace x && ws_dash s')
  end.

(** [\d+\s*-] at the head of [s] *)
Fixpoint digits_ws_dash (s : str) : bool :=
  match s with
  | [] => false
  | x :: s' => isdecimal x && (digits_ws_dash s' || ws_dash s')
  end.

(** [\s*\d+\s*-] at the head of [s] *)
Fixpoint ws_digits_ws_dash (s : str) : bool :=
  digits_ws_dash s ||
  match s with
  | [] => false
  | x :: s' => isspace x && ws_digits_ws_dash s'
  end.

(** [re.match(r'^(证监会|页码|\[source|中华人民共和国|第.*页|-\s*\d+\s*-)', text)] *)
Definition noise (text : str) : bool :=
  startswith (u "证监会") text
  || startswith (u "页码") text
  || startswith (u "[source") text
  || startswith (u "中华人民共和国") text
  || match text with
     | c :: rest => ((c =? DI) && dot_star_then YE rest)
                    || ((c =? DASH) && ws_digits_ws_dash rest)
     | [] => false
     end.

(** The engine's three local variables. *)
Record state := mk_state {
  current_c_uri : option str;
  active_uri : option str;
  has_entered_body : bool
}.

Definition init_state : state := mk_state None None false.

(** Python truthiness of a variable holding [None] or a string. *)
Definition truthy (o : option str) : bool :=
  match o with
  | Some (_ :: _) => true
  | _ => false
  end.

(** [f"/{doc_id.lower()}/c{c_val}"] *)
Definition chapter_uri (doc : str) (c_val : N) : str :=
  u "/" +++ lower doc +++ u "/c" +++ str_of_int c_val.

(** [int(a_num_str) if a_num_str.isdigit() else cn_to_int(a_num_str)] *)
Definition article_num (a_num_str : str) : N :=
  if isdigit a_num_str then int a_num_str else cn_to_int (Some a_num_str).

(** Parts B and C of the loop body, run on the text that part A leaves:
    the article-boundary test, then the content append. *)
Definition section_and_content (doc : str) (st : state) (db : database)
    (text : str) : state * database :=
  match a_match text with
  | Some a_num_str =>
    let a_val := article_num a_num_str in
    let cur :=
      if truthy (current_c_uri st) then default [] (current_c_uri st)
      else chapter_uri doc 1 in
    let article_uri := cur +++ u "/a" +++ str_of_int a_val in
    (mk_state (Some cur) (Some article_uri) true,
     _save_node db doc article_uri (u "section") a_val text (Some cur))
  | None =>
    if has_entered_body st && truthy (active_uri st) then
      if noise text then (st, db)
      else
        let cleaned := remove_char SP (remove_char NL text) in
        (st, append_content db (NL :: cleaned) (default [] (active_uri st)))
    else (st, db)
  end.

(** The loop body from [text = item.text.strip()] on: part A, the
    chapter-boundary test with the table-of-contents filter and the repair
    of a merged chapter and article header, then parts B and C. *)
Definition loop_body (doc : str) (st : state) (db : database) (text : str)
    : state * database :=
  match c_match text with
  | Some c_num_str =>
    let c_val := cn_to_int (Some c_num_str) in
    if negb (has_entered_body st)
       && (contains (u "目录") text || contains (u "...") text)
    then (st, db)
    else
      let cur := chapter_uri doc c_val in
      let st1 := mk_state (Some cur) (Some cur) (has_entered_body st) in
      match section_split text with
      | Some split_idx =>
        let chapter_title := strip (take split_idx text) in
        let db1 := _save_node db doc cur (u "chapter") c_val chapter_title None in
        section_and_content doc st1 db1 (strip (drop split_idx text))
      | None =>
        (st1, _save_node db doc cur (u "chapter") c_val text None)
      end
  | None => section_and_content doc st db text
  end.

(** One iteration of [for item, level in doc.iterate_items()]. An item is
    its [text] attribute, [None] when the attribute is missing; an item
    without text or with an empty text is skipped. *)
Definition process_item (doc : str) (s : state * database) (item : option str)
    : state * database :=
  match item with
  | None | Some [] => s
  | Some raw => loop_body doc (fst s) (snd s) (strip raw)
  end.

(** The loop over the block stream. *)
Definition run (doc : str) (s : state * database) (items : list (option str))
    : state * database :=
  fold_left (process_item doc) items s.

(** [parse_and_store]: [items] is what the converter yields for [file_path];
    the result is the committed database. *)
Definition parse_and_store (db : database) (items : list (option str))
    (doc : str) (md : metadata) : database :=
  snd (run doc (init_state, upsert_metadata db doc md) items).

End WithTables.
End Engine.
Import Engine.

(** ** 4. Vocabulary of the properties *)

(** [零], the digit an unknown character is read as. *)
Definition LING : char := Eval vm_compute in ch "零".

(** The row [_save_node] leaves under its URI, and the row an append leaves. *)
Definition upserted (old : option node) (doc lbl : str) (num : N)
    (cont : str) (parent : option str) : node :=
  match old with
  | None => mk_node doc lbl num cont parent
  | Some o => mk_node (doc_id o) lbl (num_val o) cont parent
  end.

Definition appended (frag : str) (n : node) : node :=
  mk_node (doc_id n) (label n) (num_val n) (content n +++ frag) (parent_uri n).

(** The table-of-contents test of part A. *)
Definition toc_marker (text : str) : bool :=
  contains (u "目录") text || contains (u "...") text.


(** A block that reaches part C: it has text and its stripped text matches
    neither boundary pattern. *)
Definition body_block (raw : str) : bool :=
  match raw, c_match (strip raw), a_match (strip raw) with
  | _ :: _, None, None => true
  | _, _, _ => false
  end.

(** What a body block appends: a newline, then its stripped text without
    the characters U+000A and U+0020. *)
Definition fragment (raw : str) : str :=
  NL :: remove_char SP (remove_char NL (strip raw)).

(** The blocks of a run that match no noise pattern. *)
Definition kept (isdecimal : char -> bool) (raws : list (list N)) : list (list N) :=
  List.filter (fun raw => negb (noise isdecimal (strip raw))) raws.

(** The current chapter URI is an address of this document under which the
    store holds a chapter node. *)
Definition chapter_open (lower : str -> str) (doc : str) (st : state) (db : database) : Prop :=
  exists k n, current_c_uri st = Some (chapter_uri lower doc k)
              /\ legal_nodes db !! chapter_uri lower doc k = Some n
              /\ label n = u "chapter".

(** What a pass leaves of a row: a row the pass wrote replaces the stored
    [label], [content] and [parent_uri] and keeps [doc_id] and [num_val] of
    a row stored before; a row the pass did not write stays. *)
Definition overlay_row (old new : option node) : option node :=
  match new with
  | None => old
  | Some p =>
    Some match old with
         | None => p
         | Some o => mk_node (doc_id o) (label p) (num_val o) (content p) (parent_uri p)
         end
  end.

Definition overlay (base pass : gmap (list N) node) : gmap (list N) node :=
  merge overlay_row base pass.

(** [db1] is the store of a pass that started on [base]; [db2] is the store
    of the same pass started on no rows. *)
Definition over (base : gmap (list N) node) (db1 db2 : database) : Prop :=
  legal_nodes db1 = overlay base (legal_nodes db2).

(** The active node was written in this pass. *)
Definition active_written (st : state) (db : database) : Prop :=
  forall a, active_uri st = Some a -> is_Some (legal_nodes db !! a).

(** *** Concrete passes

    The engine run with ASCII lower-casing and [0-9] for [\d], on the
    document identifier and metadata of the source's entry point. *)

Definition GSF : str := u "GSF".

Definition gsf_metadata : metadata :=
  mk_metadata (u "中华人民共和国公司法") (u "全国人大常委会") (u "2023-12-29").

Definition pass (db : database) (items : list (option str)) : database :=
  parse_and_store ascii_lower is_ascii_digit db items GSF gsf_metadata.

(** The store after a pass over the single block ["第二条 A"]. *)
Definition article_2 : database :=
  pass empty_db [Some (u "第二条 A")].

(** Every row of [m] is still in [m'], with its [doc_id] and [num_val]. *)
Definition rows_kept (m m' : gmap (list N) node) : Prop :=
  forall uri old, m !! uri = Some old ->
    exists n, m' !! uri = Some n /\ doc_id n = doc_id old /\ num_val n = num_val old.


(** No character of [s] is one of [cs]. *)
Definition free_of (cs s : str) : bool :=
  forallb (fun c => negb (existsb (N.eqb c) cs)) s.



(** *** More vocabulary: addresses and engine states *)

(** [/<doc_id.lower()>/c], the head of every address of a document. *)
Definition uri_prefix (lower : str -> str) (doc : str) : str :=
  u "/" +++ lower doc +++ u "/c".

(** The shape of the engine's variables during a pass: before the first
    accepted header nothing is set; afterwards the current chapter URI is a
    chapter address of the document and the active URI is that address or
    an article address under it. *)
Definition state_shape (lower : str -> str) (doc : str) (st : state) : Prop :=
  match current_c_uri st with
  | None => active_uri st = None /\ has_entered_body st = false
  | Some c =>
    (exists k, c = chapter_uri lower doc k)
    /\ (active_uri st = Some c
        \/ exists m, active_uri st = Some (c +++ u "/a" +++ str_of_int m))
  end.

(** ** 5. The retrieval tool of [law_regex_parser.py] *)

Module LawTool.

(** [s.endswith(p)] *)
Definition endswith (p s : str) : bool := startswith (rev p) (rev s).

(** The text before and the text after the first occurrence of [sep]. *)
Fixpoint partition (sep s : str) {struct s} : option (str * str) :=
  if startswith sep s then Some ([], drop (length sep) s)
  else
    match s with
    | [] => None
    | c :: s' =>
      match partition sep s' with
      | Some (a, b) => Some (c :: a, b)
      | None => None
      end
    end.

Fixpoint split_fuel (fuel : nat) (sep s : str) : list (list N) :=
  match fuel with
  | O => [s]
  | S n =>
    match partition sep s with
    | None => [s]
    | Some (a, b) => a :: split_fuel n sep b
    end
  end.

(** [s.split(sep)] for a non-empty [sep]: cut at each occurrence, left to
    right. Every cut consumes a character, so [length s] steps suffice. *)
Definition split (sep s : str) : list (list N) := split_fuel (length s) sep s.

(** [sep.join(l)] *)
Fixpoint join (sep : str) (l : list (list N)) : str :=
  match l with
  | [] => []
  | [x] => x
  | x :: l' => x +++ sep +++ join sep l'
  end.

(** The lookahead [(?=\n第[一二三四五六七八九十百]+条)] holds at the head of [s]. *)
Definition clause_start (s : str) : bool :=
  match s with
  | c :: rest => (c =? NL) && bool_decide (is_Some (match_header cn_class TIAO rest))
  | [] => false
  end.

(** The cuts at the positions from 1 on where the lookahead holds. *)
Fixpoint pieces (s : str) : list (list N) :=
  match s with
  | [] => [[]]
  | c :: s' =>
    if clause_start s' then [c] :: pieces s'
    else
      match pieces s' with
      | p :: ps => (c :: p) :: ps
      | [] => [[c]]
      end
  end.

(** [re.split(r'(?=\n第[一二三四五六七八九十百]+条)', s)]: the pattern matches
    the empty string before every article marker that follows a newline;
    a match at position 0 gives an empty first piece. *)
Definition split_clauses (s : str) : list (list N) :=
  if clause_start s then [] :: pieces s else pieces s.

Definition WEATHER_TAG : str := Eval vm_compute in u "[QUERY_WEATHER:".
Definition LAW_TAG : str := Eval vm_compute in u "[PARSE_LAW:".
Definition RBRACKET : char := Eval vm_compute in ch "]".
Definition LBRACKET : char := Eval vm_compute in ch "[".
Definition COMMA : char := Eval vm_compute in ch ",".

(** What [route_decision] returns: the node name ["tools"] or [END]. *)
Inductive next_node := TOOLS | END.

(** [state["messages"][-1].content]; [None] is the [IndexError] of an empty
    message list. A state is the list of its messages' contents. *)
Fixpoint last_content (messages : list (list N)) : option str :=
  match messages with
  | [] => None
  | [m] => Some m
  | _ :: ms => last_content ms
  end.

(** [route_decision] *)
Definition route_decision (messages : list (list N)) : option next_node :=
  content ← last_content messages;
  Some (if contains WEATHER_TAG content || contains LAW_TAG content
        then TOOLS else END).

Section WithFiles.

(** The file system is an input: the names [os.listdir] returns for the
    tool's directory, and the page texts PyMuPDF yields for a file name. *)
Variable listdir : list (list N).
Variable get_text : str -> list (list N).

(** [LawFileTool.search_and_parse] *)
Definition search_and_parse (keyword : str) (target_clause : option str) : str :=
  let files :=
    List.filter (fun f => contains keyword f && endswith (u ".pdf") f) listdir in
  match files with
  | [] => u "未找到包含 '" +++ keyword +++ u "' 的法律文件。"
  | file0 :: _ =>
    let full_text := concat (get_text file0) in
    let clauses := split_clauses full_text in
    if truthy target_clause then
      let target := default [] target_clause in
      match List.find (fun c => contains target c) clauses with
      | Some c => u "已在《" +++ file0 +++ u "》中找到：" +++ NL :: strip c
      | None => u "文件中未找到 " +++ target +++ u "。"
      end
    else
      u "已找到文件《" +++ file0 +++ u "》，共有 "
      +++ str_of_int (N.of_nat (length clauses)) +++ u " 条。前3条预览："
      +++ NL :: join [NL] (take 3 clauses)
  end.

(** [tool_executor_node]: the list of the contents of the messages it
    returns; [None] is an [IndexError]. *)
Definition tool_executor_node (messages : list (list N)) : option (list (list N)) :=
  content ← last_content messages;
  if contains WEATHER_TAG content then
    part ← split WEATHER_TAG content !! 1%nat;
    city ← split [RBRACKET] part !! 0%nat;
    Some [city +++ u "天气晴朗。"]
  else if contains LAW_TAG content then
    part ← split LAW_TAG content !! 1%nat;
    inner ← split [RBRACKET] part !! 0%nat;
    let params := split [COMMA] inner in
    keyword ← params !! 0%nat;
    let target := if (1 <? length params)%nat then params !! 1%nat else None in
    Some [search_and_parse keyword target]
  else Some [].

End WithFiles.
End LawTool.
Import LawTool.

(** The test [search_and_parse] puts on a file name. *)
Definition is_law_file (keyword f : str) : bool :=
  contains keyword f && endswith (u ".pdf") f.

(** A directory listing and the pages of a two-page file, for concrete runs. *)
Definition sample_listing : list (list N) :=
  [u "notes.txt"; u "反洗钱法.pdf"; u "反洗钱法实施细则.pdf"].

Definition sample_pages (f : str) : list (list N) :=
  [u "总则
第一条 为了预防洗钱活动，依照第三条
第二条 本法"; u "所称反洗钱
第三条 金融机构"].

(** * Properties *)

(** ** Strings *)

Lemma existsb_eqb_elem (c : char) (l : str) :
  existsb (N.eqb c) l = true -> c ∈ l.
Proof.
  induction l as [|x l IH]; simpl; [discriminate|].
  intros [H|H]%orb_true_iff.
  - apply N.eqb_eq in H. subst. left.
  - right. auto.
Qed.

Lemma takewhile_app_stop (p : char -> bool) (l : str) (d : char) (rest : str) :
  forallb p l = true -> p d = false ->
  takewhile p (l +++ d :: rest) = l /\ dropwhile p (l +++ d :: rest) = d :: rest.
Proof.
  intros Hl Hd. induction l as [|x l IH]; simpl.
  - by rewrite Hd.
  - simpl in Hl. apply andb_true_iff in Hl as [Hx Hl]. rewrite Hx.
    destruct (IH Hl) as [-> ->]. done.
Qed.

Lemma takewhile_dropwhile (p : char -> bool) (l : str) :
  takewhile p l +++ dropwhile p l = l.
Proof. induction l as [|x l IH]; simpl; [done|]. destruct (p x); simpl; congruence. Qed.

Lemma takewhile_forallb (p : char -> bool) (l : str) :
  forallb p (takewhile p l) = true.
Proof. induction l as [|x l IH]; simpl; [done|]. destruct (p x) eqn:E; simpl; [by rewrite E|done]. Qed.

Lemma int_uint_acc (d : Decimal.uint) : forall acc,
  fold_left (fun acc c => acc * 10 + (c - 48)) (uint_chars d) (N.pos acc)
  = N.pos (Pos.of_uint_acc d acc).
Proof.
  induction d; intros acc; cbn [uint_chars fold_left Pos.of_uint_acc];
    [done | rewrite <- IHd; f_equal; lia ..].
Qed.

Lemma int_uint_chars (d : Decimal.uint) : int (uint_chars d) = N.of_uint d.
Proof.
  unfold int, N.of_uint.
  induction d; cbn [uint_chars fold_left Pos.of_uint]; [done | done | ..];
    rewrite <- int_uint_acc; f_equal.
Qed.

(** [int] reads a decimal rendering back. *)
Lemma int_str_of_int (n : N) : int (str_of_int n) = n.
Proof. unfold str_of_int. rewrite int_uint_chars. apply DecimalN.Unsigned.of_to. Qed.

(** ** 1. The numeral normalizer *)

Example cn_to_int_docstring : cn_to_int (Some (u "一百二十三")) = 123.
Proof. reflexivity. Qed.

Example numeral_samples :
  numeral 10 = u "十" /\ numeral 23 = u "二十三" /\ numeral 105 = u "一百零五"
  /\ numeral 110 = u "一百一十" /\ numeral 999 = u "九百九十九".
Proof. repeat split; reflexivity. Qed.

Lemma normalize_scan_loop (s : str) : forall total pending,
  forallb in_alphabet s = true ->
  normalize_scan total pending s
  = Some (let '(res, temp) := fold_left cn_loop_body s (total, pending) in res + temp).
Proof.
  induction s as [|c s IH]; intros total pending Hs; [reflexivity|].
  simpl in Hs. apply andb_true_iff in Hs as [Hc Hs].
  apply existsb_eqb_elem in Hc. unfold alphabet in Hc.
  cbn [normalize_scan fold_left].
  repeat (apply elem_of_cons in Hc as [->|Hc]);
    try (by apply elem_of_nil in Hc);
    (etrans; [|apply (IH _ _ Hs)]); reflexivity.
Qed.

Lemma numeral_below_1000 :
  forallb (fun n => cn_to_int (Some (numeral n)) =? n)
          (map N.of_nat (seq 0 1000)) = true.
Proof. vm_compute. reflexivity. Qed.

(** C5. [cn_to_int] returns the six reference values; on every string over
    the digits [零..九] and the markers [十], [百] it computes what the
    left-to-right scan with a running total and a pending digit computes;
    and it reads every numeral below 1000 back as the integer it denotes. *)
Theorem C5_cn_to_int_normalizes (s : str) (n : N) :
  forallb in_alphabet s = true ->
  n < 1000 ->
  (cn_to_int (Some (u "十")) = 10
   /\ cn_to_int (Some (u "二十三")) = 23
   /\ cn_to_int (Some (u "一百")) = 100
   /\ cn_to_int (Some (u "一百二十三")) = 123
   /\ cn_to_int (Some []) = 0
   /\ cn_to_int None = 0)
  /\ normalize_scan 0 0 s = Some (cn_to_int (Some s))
  /\ cn_to_int (Some (numeral n)) = n.
Proof.
  intros Hs Hn. split; [repeat split; reflexivity|]. split.
  - rewrite (normalize_scan_loop s 0 0 Hs). destruct s; reflexivity.
  - pose proof numeral_below_1000 as H.
    rewrite forallb_forall in H.
    apply N.eqb_eq, H, in_map_iff. exists (N.to_nat n). split; [lia|].
    apply in_seq. lia.
Qed.

Lemma C5_witness :
  (cn_to_int (Some (u "十")) = 10
   /\ cn_to_int (Some (u "二十三")) = 23
   /\ cn_to_int (Some (u "一百")) = 100
   /\ cn_to_int (Some (u "一百二十三")) = 123
   /\ cn_to_int (Some []) = 0
   /\ cn_to_int None = 0)
  /\ normalize_scan 0 0 (u "九十九") = Some (cn_to_int (Some (u "九十九")))
  /\ cn_to_int (Some (numeral 305)) = 305.
Proof.
  apply (C5_cn_to_int_normalizes (u "九十九") 305); [reflexivity | lia].
Defined.

Lemma cn_loop_body_unknown (acc : N * N) (c : char) :
  in_alphabet c = false -> cn_loop_body acc c = (fst acc, 0).
Proof.
  unfold in_alphabet, alphabet. cbn [existsb].
  rewrite !orb_false_iff, !N.eqb_neq.
  intros H. destruct acc as [res temp]. unfold cn_loop_body, CN_NUM.
  cbn [dict_get fst].
  repeat match goal with
         | |- context [?a =? ?b] => destruct (N.eqb_spec a b); [exfalso; intuition congruence|]
         end.
  reflexivity.
Qed.

Lemma cn_loop_unknown_as_zero (s : str) : forall acc,
  fold_left cn_loop_body (map (fun c => if in_alphabet c then c else LING) s) acc
  = fold_left cn_loop_body s acc.
Proof.
  induction s as [|c s IH]; intros acc; [reflexivity|].
  cbn [map fold_left]. rewrite IH. f_equal.
  destruct (in_alphabet c) eqn:Hc; [reflexivity|].
  rewrite (cn_loop_body_unknown acc c Hc). by destruct acc.
Qed.

(** C8, as the code has it. [cn_to_int] is total, and a character outside
    [零..九], [十], [百] acts exactly like [零]: it resets the pending digit to
    0, so the result is that of the string with every such character
    replaced by [零]. *)
Theorem C8_unknown_chars_reset_pending (s : str) (acc : N * N) (c : char) :
  in_alphabet c = false ->
  cn_loop_body acc c = (fst acc, 0)
  /\ cn_loop_body acc c = cn_loop_body acc LING
  /\ cn_to_int (Some s)
     = cn_to_int (Some (map (fun c => if in_alphabet c then c else LING) s)).
Proof.
  intros Hc. split; [by apply cn_loop_body_unknown|]. split.
  - rewrite (cn_loop_body_unknown acc c Hc). by destruct acc.
  - destruct s as [|c0 s]; [reflexivity|].
    unfold cn_to_int. rewrite <- (cn_loop_unknown_as_zero (c0 :: s)).
    reflexivity.
Qed.

Lemma C8_witness :
  cn_loop_body (0, 2) (ch "x") = (0, 0)
  /\ cn_loop_body (0, 2) (ch "x") = cn_loop_body (0, 2) LING
  /\ cn_to_int (Some (u "二x十"))
     = cn_to_int (Some (map (fun c => if in_alphabet c then c else LING) (u "二x十"))).
Proof.
  apply (C8_unknown_chars_reset_pending (u "二x十") (0, 2) (ch "x")).
  vm_compute. reflexivity.
Defined.

(** C8, as stated, fails: removing the unknown character changes the value.
    ["二x"] gives 0, ["二"] gives 2. *)
Lemma C8_counterexample :
  cn_to_int (Some (u "二x")) = 0
  /\ cn_to_int (Some (List.filter in_alphabet (u "二x"))) = 2
  /\ cn_to_int (Some (u "二x"))
     <> cn_to_int (Some (List.filter in_alphabet (u "二x"))).
Proof. vm_compute. repeat split; discriminate. Qed.

(** ** 2. Patterns *)

Lemma digit_not_cn (c : char) : is_ascii_digit c = true -> cn_class c = false.
Proof.
  intros Hd. destruct (cn_class c) eqn:Hc; [|done].
  apply existsb_eqb_elem in Hc. unfold cn_class_chars in Hc.
  repeat (apply elem_of_cons in Hc as [->|Hc]); try discriminate Hd.
  by apply elem_of_nil in Hc.
Qed.

Lemma match_header_Some (cls : char -> bool) (closer : char) (text g : str) :
  match_header cls closer text = Some g ->
  g <> [] /\ forallb cls g = true
  /\ exists rest, text = DI :: g +++ closer :: rest.
Proof.
  unfold match_header. destruct text as [|c rest]; [done|].
  destruct (N.eqb_spec c DI) as [->|]; [|done].
  pose proof (takewhile_dropwhile cls rest) as Hsplit.
  pose proof (takewhile_forallb cls rest) as Hall.
  destruct (takewhile cls rest) as [|g0 g']; [done|].
  destruct (dropwhile cls rest) as [|d tl]; [done|].
  destruct (N.eqb_spec d closer) as [->|]; [|done].
  intros [= <-]. split; [done|]. split; [done|].
  exists tl. by rewrite <- Hsplit.
Qed.

Lemma match_header_intro (cls : char -> bool) (closer : char) (g rest : str) :
  g <> [] -> forallb cls g = true -> cls closer = false ->
  match_header cls closer (DI :: g +++ closer :: rest) = Some g.
Proof.
  intros Hne Hall Hcl. unfold match_header. rewrite N.eqb_refl.
  destruct (takewhile_app_stop cls g closer rest Hall Hcl) as [-> ->].
  destruct g; [done|]. by rewrite N.eqb_refl.
Qed.

(** The header patterns, read as languages: [^第(CLS+)CLOSER] matches
    exactly the texts [第 g CLOSER ...] with [g] a non-empty run of class
    characters, and captures [g]. *)
Lemma match_header_iff (cls : char -> bool) (closer : char) (text g : str) :
  cls closer = false ->
  match_header cls closer text = Some g
  <-> g <> [] /\ forallb cls g = true
      /\ exists rest, text = DI :: g +++ closer :: rest.
Proof.
  intros Hcl. split; [apply match_header_Some|].
  intros (Hne & Hall & rest & ->). by apply match_header_intro.
Qed.

Lemma isdigit_forallb (ds : str) :
  isdigit ds = true -> ds <> [] /\ forallb is_ascii_digit ds = true.
Proof. destruct ds; [done|]. intros H. split; done. Qed.

Lemma forallb_impl (p q : char -> bool) (l : str) :
  (forall c, p c = true -> q c = true) -> forallb p l = true -> forallb q l = true.
Proof.
  intros Hpq. induction l as [|x l IH]; simpl; [done|].
  intros [Hx Hl]%andb_true_iff. rewrite (Hpq x Hx). auto.
Qed.

(** A header whose numeral is in ASCII digits is an article header ... *)
Lemma a_match_digits (ds rest : str) :
  isdigit ds = true -> a_match (DI :: ds +++ TIAO :: rest) = Some ds.
Proof.
  intros [Hne Hall]%isdigit_forallb. apply match_header_intro; [done| |done].
  apply (forallb_impl is_ascii_digit); [|done].
  intros c Hc. unfold num_class. by rewrite Hc.
Qed.

(** ... and never a chapter header. *)
Lemma c_match_digits (ds rest : str) :
  isdigit ds = true -> c_match (DI :: ds +++ rest) = None.
Proof.
  intros [Hne Hall]%isdigit_forallb. destruct ds as [|d ds]; [done|].
  simpl in Hall. apply andb_true_iff in Hall as [Hd _].
  unfold c_match, match_header. rewrite N.eqb_refl. simpl.
  by rewrite (digit_not_cn d Hd).
Qed.

(** A header [第<digits>章] matches neither boundary pattern. *)
Lemma a_match_digits_chapter (ds rest : str) :
  isdigit ds = true -> a_match (DI :: ds +++ ZHANG :: rest) = None.
Proof.
  intros [Hne Hall]%isdigit_forallb. unfold a_match, match_header.
  rewrite N.eqb_refl.
  assert (Hcls : forallb num_class ds = true).
  { apply (forallb_impl is_ascii_digit); [|done].
    intros c Hc. unfold num_class. by rewrite Hc. }
  destruct (takewhile_app_stop num_class ds ZHANG rest Hcls eq_refl) as [-> ->].
  by destruct ds.
Qed.

(** The numeral a chapter header captures is never in ASCII digits. *)
Lemma c_match_not_digits (text g : str) :
  c_match text = Some g -> isdigit g = false.
Proof.
  intros (Hne & Hall & _)%match_header_Some.
  destruct g as [|g0 g]; [done|]. simpl in *.
  apply andb_true_iff in Hall as [H0 _].
  destruct (is_ascii_digit g0) eqn:E; [|done].
  by rewrite (digit_not_cn g0 E) in H0.
Qed.

(** ** 3. Storage *)

Arguments u : simpl never.
Arguments _save_node : simpl never.
Arguments append_content : simpl never.
Arguments upsert_metadata : simpl never.

Lemma save_lookup_eq db doc uri lbl num cont parent :
  legal_nodes (_save_node db doc uri lbl num cont parent) !! uri
  = Some (upserted (legal_nodes db !! uri) doc lbl num cont parent).
Proof. unfold _save_node; simpl. rewrite lookup_insert_eq. by destruct (_ !! _). Qed.

Lemma save_lookup_ne db doc uri lbl num cont parent (uri' : str) :
  uri <> uri' ->
  legal_nodes (_save_node db doc uri lbl num cont parent) !! uri'
  = legal_nodes db !! uri'.
Proof. intros. unfold _save_node; simpl. by rewrite lookup_insert_ne. Qed.

Lemma save_metadata db doc uri lbl num cont parent :
  legal_metadata (_save_node db doc uri lbl num cont parent) = legal_metadata db.
Proof. reflexivity. Qed.

Lemma append_lookup_eq db frag uri :
  legal_nodes (append_content db frag uri) !! uri
  = appended frag <$> legal_nodes db !! uri.
Proof. unfold append_content; simpl. by rewrite lookup_alter_eq. Qed.

Lemma append_lookup_ne db frag uri (uri' : str) :
  uri <> uri' ->
  legal_nodes (append_content db frag uri) !! uri' = legal_nodes db !! uri'.
Proof. intros. unfold append_content; simpl. by rewrite lookup_alter_ne. Qed.

Lemma append_metadata db frag uri :
  legal_metadata (append_content db frag uri) = legal_metadata db.
Proof. reflexivity. Qed.

Lemma appends_lookup_eq (frags : list (list N)) uri : forall db,
  legal_nodes (fold_left (fun d f => append_content d f uri) frags db) !! uri
  = (fun n => mk_node (doc_id n) (label n) (num_val n)
                      (content n +++ concat frags) (parent_uri n))
    <$> legal_nodes db !! uri.
Proof.
  induction frags as [|f frags IH]; intros db; simpl.
  - destruct (legal_nodes db !! uri) as [[]|]; simpl; [|done].
    by rewrite app_nil_r.
  - rewrite IH, append_lookup_eq.
    destruct (legal_nodes db !! uri) as [[]|]; simpl; [|done].
    by rewrite <- app_assoc.
Qed.

(** ** 4. The engine *)

Lemma strip_nil : strip [] = [].
Proof. reflexivity. Qed.

Section EngineProperties.

Variable lower : str -> str.
Variable isdecimal : char -> bool.

Local Abbreviation chapter_uri := (chapter_uri lower).
Local Abbreviation section_and_content := (section_and_content lower isdecimal).
Local Abbreviation loop_body := (loop_body lower isdecimal).
Local Abbreviation process_item := (process_item lower isdecimal).
Local Abbreviation run := (run lower isdecimal).
Local Abbreviation parse_and_store := (parse_and_store lower isdecimal).
Local Abbreviation kept := (kept isdecimal).
Local Abbreviation chapter_open := (chapter_open lower).

Lemma process_item_text doc st db (raw : str) :
  strip raw <> [] ->
  process_item doc (st, db) (Some raw) = loop_body doc st db (strip raw).
Proof. destruct raw; [by rewrite strip_nil|done]. Qed.

Lemma process_item_nonempty doc st db (raw : str) :
  raw <> [] ->
  process_item doc (st, db) (Some raw) = loop_body doc st db (strip raw).
Proof. by destruct raw. Qed.

(** What parts B and C do on an article header. *)
Lemma section_and_content_article doc st db text g :
  a_match text = Some g ->
  let cur := if truthy (current_c_uri st) then default [] (current_c_uri st)
             else chapter_uri doc 1 in
  let uri := cur +++ u "/a" +++ str_of_int (article_num g) in
  section_and_content doc st db text
  = (mk_state (Some cur) (Some uri) true,
     _save_node db doc uri (u "section") (article_num g) text (Some cur)).
Proof. intros H. unfold Engine.section_and_content. by rewrite H. Qed.

(** C7, as the code has it. At the article header, a numeral in plain ASCII
    digits is recognised before any Chinese numeral parsing and read directly
    as an integer: a block [第<digits>条...] is an article header whose number
    is the decimal value of the digits; that number names the address under
    which the row is stored, and is the row's [num_val] when the row is new
    (on a conflict the stored [num_val] stays). [int] reads every decimal
    rendering back, and a numeral that is not in ASCII digits goes to
    [cn_to_int]. The chapter header has no such test: its pattern admits
    Chinese numerals only, so the numeral it captures is never in ASCII
    digits and a block [第<digits>章...] matches neither boundary pattern. *)
Theorem C7_ascii_digit_numerals doc st db
    (raw ds rest text' g' cn ch_rest : str) :
  isdigit ds = true ->
  strip raw = DI :: ds +++ TIAO :: rest ->
  c_match text' = Some g' ->
  isdigit cn = false ->
  let cur := if truthy (current_c_uri st) then default [] (current_c_uri st)
             else chapter_uri doc 1 in
  let uri := cur +++ u "/a" +++ str_of_int (int ds) in
  let r := process_item doc (st, db) (Some raw) in
  a_match (strip raw) = Some ds
  /\ article_num ds = int ds
  /\ fst r = mk_state (Some cur) (Some uri) true
  /\ legal_nodes (snd r) !! uri
     = Some (match legal_nodes db !! uri with
             | None => mk_node doc (u "section") (int ds) (strip raw) (Some cur)
             | Some old => mk_node (doc_id old) (u "section") (num_val old)
                                   (strip raw) (Some cur)
             end)
  /\ (forall n, int (str_of_int n) = n)
  /\ isdigit g' = false
  /\ article_num cn = cn_to_int (Some cn)
  /\ c_match (DI :: ds +++ ZHANG :: ch_rest) = None
  /\ a_match (DI :: ds +++ ZHANG :: ch_rest) = None.
Proof.
  intros Hds Hraw Hc Hcn cur uri r.
  assert (Ha : a_match (strip raw) = Some ds) by (rewrite Hraw; by apply a_match_digits).
  assert (Hn : article_num ds = int ds) by (unfold article_num; by rewrite Hds).
  assert (Hr : r = (mk_state (Some cur) (Some uri) true,
                    _save_node db doc uri (u "section") (int ds) (strip raw) (Some cur))).
  { subst r. rewrite process_item_text by (by rewrite Hraw).
    unfold Engine.loop_body.
    rewrite Hraw at 1. rewrite (c_match_digits ds (TIAO :: rest) Hds).
    rewrite (section_and_content_article doc st db _ ds Ha). by rewrite Hn. }
  rewrite Hr. cbn [fst snd].
  split; [done|]. split; [done|]. split; [done|].
  split; [rewrite save_lookup_eq; by destruct (_ !! _)|].
  split; [apply int_str_of_int|]. split; [by eapply c_match_not_digits|].
  split; [by unfold article_num; rewrite Hcn|].
  split; [by apply c_match_digits|by apply a_match_digits_chapter].
Qed.

(** C9. Saving a node creates the row when its URI is new and, on a
    conflict, replaces [content], [parent_uri] and [label] while [doc_id]
    and [num_val] stay as stored; no other row and no metadata changes.
    Whatever was appended under the URI since an earlier save is discarded
    by the next save, and an article header arriving for an address that
    already has a row resets that row's content to the header text. *)
Theorem C9_save_node_upsert doc st db (uri lbl : str) (num : N) (cont : str)
    (parent : option str) (frags : list (list N)) (doc2 lbl2 : str) (num2 : N)
    (cont2 : str) (parent2 : option str) (text : str) :
  let db' := _save_node db doc uri lbl num cont parent in
  legal_nodes db' !! uri
  = Some (match legal_nodes db !! uri with
          | None => mk_node doc lbl num cont parent
          | Some old => mk_node (doc_id old) lbl (num_val old) cont parent
          end)
  /\ delete uri (legal_nodes db') = delete uri (legal_nodes db)
  /\ legal_metadata db' = legal_metadata db
  /\ (let db'' := fold_left (fun d f => append_content d f uri) frags db' in
      legal_nodes db'' !! uri
      = Some (match legal_nodes db !! uri with
              | None => mk_node doc lbl num (cont +++ concat frags) parent
              | Some old => mk_node (doc_id old) lbl (num_val old)
                                    (cont +++ concat frags) parent
              end)
      /\ legal_nodes (_save_node db'' doc2 uri lbl2 num2 cont2 parent2) !! uri
         = Some (match legal_nodes db !! uri with
                 | None => mk_node doc lbl2 num cont2 parent2
                 | Some old => mk_node (doc_id old) lbl2 (num_val old) cont2 parent2
                 end))
  /\ match a_match text, section_and_content doc st db text with
     | Some _, (st', db3) =>
       exists a, active_uri st' = Some a
                 /\ content <$> legal_nodes db3 !! a = Some text
                 /\ doc_id <$> legal_nodes db3 !! a
                    = Some (from_option doc_id doc (legal_nodes db !! a))
     | None, _ => True
     end.
Proof.
  intros db'. subst db'. repeat split.
  - rewrite save_lookup_eq. by destruct (_ !! _).
  - unfold _save_node; simpl. by rewrite delete_insert_eq.
  - rewrite appends_lookup_eq, save_lookup_eq. by destruct (_ !! _).
  - rewrite save_lookup_eq, appends_lookup_eq, save_lookup_eq.
    by destruct (_ !! _).
  - destruct (a_match text) as [g|] eqn:Ha; [|done].
    rewrite (section_and_content_article doc st db text g Ha).
    eexists. split; [done|]. rewrite save_lookup_eq.
    by destruct (_ !! _).
Qed.

Lemma u_slash : u "/" = [47].
Proof. vm_compute. reflexivity. Qed.

Lemma u_slash_a : u "/a" = [47; 97].
Proof. vm_compute. reflexivity. Qed.

Lemma chapter_uri_truthy doc k : truthy (Some (chapter_uri doc k)) = true.
Proof. unfold Engine.chapter_uri. by rewrite u_slash. Qed.

Lemma article_uri_ne (c x : str) : c +++ u "/a" +++ x <> c.
Proof.
  rewrite u_slash_a. intros H. apply (f_equal length) in H.
  rewrite length_app in H. simpl in H. lia.
Qed.

(** *** Metadata is written once, at entry *)

Lemma section_and_content_metadata doc st db text :
  legal_metadata (snd (section_and_content doc st db text)) = legal_metadata db.
Proof.
  unfold Engine.section_and_content.
  destruct (a_match text); [done|].
  destruct (_ && _); [|done]. by destruct (noise _ _).
Qed.

Lemma loop_body_metadata doc st db text :
  legal_metadata (snd (loop_body doc st db text)) = legal_metadata db.
Proof.
  unfold Engine.loop_body.
  destruct (c_match text); [|apply section_and_content_metadata].
  destruct (_ && _); [done|].
  destruct (section_split text); [|done].
  by rewrite section_and_content_metadata.
Qed.

Lemma process_item_metadata doc s item :
  legal_metadata (snd (process_item doc s item)) = legal_metadata (snd s).
Proof.
  destruct item as [[|c raw]|]; [done| |done].
  apply loop_body_metadata.
Qed.

Lemma run_metadata doc items : forall s,
  legal_metadata (snd (run doc s items)) = legal_metadata (snd s).
Proof.
  induction items as [|item items IH]; intros s; [done|].
  unfold Engine.run in *. simpl. by rewrite IH, process_item_metadata.
Qed.

Lemma parse_and_store_metadata db items doc md :
  legal_metadata (parse_and_store db items doc md)
  = <[doc := match legal_metadata db !! doc with
             | None => mk_meta (md_title md) (md_creator md) (md_date md)
             | Some old => mk_meta (md_title md) (creator old) (pub_date old)
             end]> (legal_metadata db).
Proof. unfold Engine.parse_and_store. by rewrite run_metadata. Qed.

(** C10, as the code has it. [parse_and_store] writes the metadata row of
    [doc_id] once, at entry: a new [doc_id] gets title, creator and date;
    for a [doc_id] that already has a row only the title is replaced, the
    stored creator and date stay. Rows of other documents are untouched. *)
Theorem C10_metadata_upsert_title_only db items doc md :
  legal_metadata (parse_and_store db items doc md)
  = <[doc := match legal_metadata db !! doc with
             | None => mk_meta (md_title md) (md_creator md) (md_date md)
             | Some old => mk_meta (md_title md) (creator old) (pub_date old)
             end]> (legal_metadata db).
Proof. apply parse_and_store_metadata. Qed.

(** *** An open chapter stays in the store *)

Lemma section_and_content_keeps doc st db text (c : str) (n : node) :
  current_c_uri st = Some c -> truthy (Some c) = true ->
  legal_nodes db !! c = Some n ->
  current_c_uri (fst (section_and_content doc st db text)) = Some c
  /\ (has_entered_body st = true ->
      has_entered_body (fst (section_and_content doc st db text)) = true)
  /\ exists n',
       legal_nodes (snd (section_and_content doc st db text)) !! c = Some n'
       /\ label n' = label n /\ parent_uri n' = parent_uri n
       /\ doc_id n' = doc_id n /\ num_val n' = num_val n
       /\ (is_Some (a_match text) -> content n' = content n).
Proof.
  intros Hc Ht Hn. unfold Engine.section_and_content.
  destruct (a_match text) as [g|] eqn:Ha.
  - rewrite Hc, Ht. cbn [fst snd current_c_uri has_entered_body default from_option id].
    split; [done|]. split; [done|].
    exists n. rewrite save_lookup_ne by apply article_uri_ne. done.
  - assert (Hno : is_Some (@None (list N)) -> False) by (by intros [? ?]).
    destruct (has_entered_body st && truthy (active_uri st)) eqn:E;
      [|by (repeat split; [done..|exists n; naive_solver])].
    destruct (noise isdecimal text);
      [by (repeat split; [done..|exists n; naive_solver])|].
    cbn [fst snd]. split; [done|]. split; [done|].
    destruct (decide (default [] (active_uri st) = c)) as [->|Hne].
    + rewrite append_lookup_eq, Hn. cbn [fmap option_fmap option_map]. eexists. split; [done|].
      naive_solver.
    + rewrite append_lookup_ne by done. exists n. naive_solver.
Qed.

(** C2. A block matching the chapter pattern whose text contains ["目录"] or
    three full stops in a row is discarded while [has_entered_body] is false:
    nothing is persisted and the engine state is unchanged. The identical
    block, once [has_entered_body] is true, is accepted: the chapter URI
    becomes current and a chapter node is persisted under it (with the whole
    text as content when no article marker is merged into the block). *)
Theorem C2_toc_suppression doc (cur act : option str) db (raw g : str) :
  c_match (strip raw) = Some g ->
  toc_marker (strip raw) = true ->
  process_item doc (mk_state cur act false, db) (Some raw)
  = (mk_state cur act false, db)
  /\ (let r := process_item doc (mk_state cur act true, db) (Some raw) in
      let c := chapter_uri doc (cn_to_int (Some g)) in
      current_c_uri (fst r) = Some c
      /\ has_entered_body (fst r) = true
      /\ exists n, legal_nodes (snd r) !! c = Some n
                   /\ label n = u "chapter" /\ parent_uri n = None
                   /\ (section_split (strip raw) = None ->
                       active_uri (fst r) = Some c /\ content n = strip raw)).
Proof.
  intros Hc Htoc. unfold toc_marker in Htoc.
  assert (Hne : strip raw <> []).
  { intros E. rewrite E in Hc. discriminate. }
  rewrite !process_item_text by done. unfold Engine.loop_body.
  rewrite Hc. cbn [has_entered_body negb andb]. rewrite Htoc.
  split; [done|]. cbv zeta.
  destruct (section_split (strip raw)) as [idx|].
  - set (c := chapter_uri doc (cn_to_int (Some g))).
    set (db1 := _save_node _ _ _ _ _ _ _).
    destruct (section_and_content_keeps doc (mk_state (Some c) (Some c) true) db1
                (strip (drop idx (strip raw))) c
                (upserted (legal_nodes db !! c) doc (u "chapter")
                          (cn_to_int (Some g)) (strip (take idx (strip raw))) None))
      as (H1 & H2 & n' & Hn' & Hl & Hp & _);
      [done|apply chapter_uri_truthy|apply save_lookup_eq|].
    split; [done|]. split; [by apply H2|].
    exists n'. split; [done|]. rewrite Hl, Hp.
    by destruct (legal_nodes db !! c).
  - cbn [fst snd current_c_uri has_entered_body active_uri].
    split; [done|]. split; [done|].
    eexists. split; [apply save_lookup_eq|].
    by destruct (legal_nodes db !! _).
Qed.

(** *** Stripping and splitting *)










(** The split is the leftmost one: no earlier whitespace character has
    its whitespace run followed by an article marker. *)
Lemma section_split_leftmost (text : str) : forall idx j c rest,
  section_split text = Some idx -> (j < idx)%nat ->
  drop j text = c :: rest ->
  isspace c && bool_decide (is_Some (a_match (lstrip rest))) = false.
Proof.
  induction text as [|x t IH]; intros idx j c rest; [done|].
  cbn [section_split].
  destruct (isspace x && bool_decide (is_Some (a_match (lstrip t)))) eqn:E.
  - intros [= <-] Hj. lia.
  - destruct (section_split t) as [i|] eqn:Hs; [|done].
    intros [= <-] Hj Hd. destruct j as [|j].
    + change (x :: t = c :: rest) in Hd. by injection Hd as <- <-.
    + apply (IH i j); [done|lia|done].
Qed.






(** *** Content accrual *)

Lemma process_item_body doc st db (raw a : str) :
  body_block raw = true ->
  has_entered_body st = true -> active_uri st = Some a -> a <> [] ->
  process_item doc (st, db) (Some raw)
  = (st, if noise isdecimal (strip raw) then db
         else append_content db (fragment raw) a).
Proof.
  unfold body_block. intros Hb He Ha Hne.
  destruct raw as [|x raw]; [done|].
  rewrite process_item_nonempty by done. unfold Engine.loop_body.
  destruct (c_match (strip (x :: raw))); [done|].
  unfold Engine.section_and_content.
  destruct (a_match (strip (x :: raw))); [done|].
  rewrite He, Ha. destruct a; [done|]. cbn [truthy andb].
  by destruct (noise _ _).
Qed.

Lemma appends_delete (frags : list (list N)) (a : str) : forall db,
  delete a (legal_nodes (fold_left (fun d f => append_content d f a) frags db))
  = delete a (legal_nodes db).
Proof.
  induction frags as [|f frags IH]; intros db; [done|].
  cbn [fold_left]. rewrite IH. unfold append_content. cbn [legal_nodes].
  apply delete_alter_eq.
Qed.

Lemma run_body doc st (a : str) (raws : list (list N)) : forall db,
  forallb body_block raws = true ->
  has_entered_body st = true -> active_uri st = Some a -> a <> [] ->
  run doc (st, db) (map Some raws)
  = (st, fold_left (fun d f => append_content d f a) (map fragment (kept raws)) db).
Proof.
  induction raws as [|raw raws IH]; intros db Hall He Ha Hne; [done|].
  cbn [forallb] in Hall. apply andb_true_iff in Hall as [Hb Hall].
  unfold Engine.run in *. cbn [map fold_left].
  rewrite (process_item_body doc st db raw a) by done.
  rewrite IH by done. unfold kept. cbn [List.filter].
  by destruct (noise isdecimal (strip raw)).
Qed.

(** C6, as the code has it. Once the body has been entered and a node is
    active, a run of blocks that match neither boundary pattern leaves the
    engine state alone and appends to the active node, in arrival order and
    for each block that matches no noise pattern, a newline followed by the
    block's stripped text with every newline and every space character
    (U+0020) removed; a block that matches a noise pattern leaves the whole
    store unchanged; no other node is touched. *)
Theorem C6_content_accrual doc st db (a : str) (raws : list (list N))
    (noisy : str) :
  has_entered_body st = true -> active_uri st = Some a -> a <> [] ->
  forallb body_block raws = true ->
  body_block noisy = true -> noise isdecimal (strip noisy) = true ->
  let r := run doc (st, db) (map Some raws) in
  fst r = st
  /\ legal_nodes (snd r) !! a
     = (fun n => mk_node (doc_id n) (label n) (num_val n)
                         (content n +++ concat (map fragment (kept raws)))
                         (parent_uri n))
       <$> legal_nodes db !! a
  /\ delete a (legal_nodes (snd r)) = delete a (legal_nodes db)
  /\ process_item doc (st, db) (Some noisy) = (st, db).
Proof.
  intros He Ha Hne Hall Hb Hn r. subst r.
  rewrite (run_body doc st a raws db) by done. cbn [fst snd].
  split; [done|]. split; [apply appends_lookup_eq|].
  split; [apply appends_delete|].
  rewrite (process_item_body doc st db noisy a) by done. by rewrite Hn.
Qed.

(** *** Parents of article nodes *)

Lemma section_and_content_open doc st db text :
  chapter_open doc st db ->
  chapter_open doc (fst (section_and_content doc st db text))
                   (snd (section_and_content doc st db text)).
Proof.
  intros (k & n & Hc & Hn & Hl).
  destruct (section_and_content_keeps doc st db text _ n Hc
              (chapter_uri_truthy doc k) Hn) as (H1 & _ & n' & Hn' & Hl' & _).
  exists k, n'. by rewrite Hl'.
Qed.

Lemma loop_body_accepts doc st db text g :
  c_match text = Some g ->
  has_entered_body st = true \/ toc_marker text = false ->
  chapter_open doc (fst (loop_body doc st db text)) (snd (loop_body doc st db text)).
Proof.
  intros Hc Hgate. unfold Engine.loop_body. rewrite Hc.
  assert (negb (has_entered_body st)
          && (contains (u "目录") text || contains (u "...") text) = false) as ->.
  { destruct Hgate as [->| E]; [done|]. unfold toc_marker in E.
    rewrite E. apply andb_false_r. }
  cbv zeta. destruct (section_split text) as [idx|].
  - apply section_and_content_open.
    eexists _, _. cbn [current_c_uri]. split; [done|].
    rewrite save_lookup_eq. split; [done|]. by destruct (_ !! _).
  - eexists _, _. cbn [fst snd current_c_uri]. split; [done|].
    rewrite save_lookup_eq. split; [done|]. by destruct (_ !! _).
Qed.

Lemma loop_body_open doc st db text :
  chapter_open doc st db ->
  chapter_open doc (fst (loop_body doc st db text)) (snd (loop_body doc st db text)).
Proof.
  intros Hopen. destruct (c_match text) as [g|] eqn:Hc.
  - destruct (negb (has_entered_body st) && toc_marker text) eqn:E.
    + unfold Engine.loop_body. rewrite Hc. unfold toc_marker in E. by rewrite E.
    + apply (loop_body_accepts doc st db text g Hc).
      apply andb_false_iff in E as [E|E]; [left; by destruct (has_entered_body st)|by right].
  - unfold Engine.loop_body. rewrite Hc. by apply section_and_content_open.
Qed.

Lemma process_item_open doc st db item :
  chapter_open doc st db ->
  chapter_open doc (fst (process_item doc (st, db) item))
                   (snd (process_item doc (st, db) item)).
Proof.
  intros Hopen. destruct item as [[|x raw]|]; [done| |done].
  by apply loop_body_open.
Qed.

Lemma run_open doc items : forall st db,
  chapter_open doc st db ->
  chapter_open doc (fst (run doc (st, db) items)) (snd (run doc (st, db) items)).
Proof.
  induction items as [|item items IH]; intros st db Hopen; [done|].
  unfold Engine.run in *. cbn [fold_left].
  destruct (process_item doc (st, db) item) as [st1 db1] eqn:E.
  apply IH. pose proof (process_item_open doc st db item Hopen) as H.
  by rewrite E in H.
Qed.

(** C4, as the code has it. An article node is persisted with the engine's
    current chapter URI as [parent_uri] and that URI followed by [/a<m>] as
    its own address. Where a chapter node is stored at the current chapter
    URI - which is so from the first accepted chapter header on, through
    every later block of the pass - the parent is a chapter node that exists
    in the store. Where no chapter has been opened, the address
    [/<doc_id.lower()>/c1] is synthesized (no node is written at it), and
    the article is stored at [/<doc_id.lower()>/c1/a<m>]. *)
Theorem C4_article_parent doc st db (text g : str) (items : list (option str))
    (raw gc : str) :
  a_match text = Some g ->
  c_match (strip raw) = Some gc ->
  let r := section_and_content doc st db text in
  let m := article_num g in
  (exists c an,
     current_c_uri (fst r) = Some c
     /\ active_uri (fst r) = Some (c +++ u "/a" +++ str_of_int m)
     /\ legal_nodes (snd r) !! (c +++ u "/a" +++ str_of_int m) = Some an
     /\ label an = u "section" /\ parent_uri an = Some c
     /\ legal_nodes (snd r) !! c = legal_nodes db !! c
     /\ (chapter_open doc st db ->
         current_c_uri st = Some c
         /\ exists cn, legal_nodes (snd r) !! c = Some cn /\ label cn = u "chapter")
     /\ (current_c_uri st = None -> c = chapter_uri doc 1))
  /\ (has_entered_body st = true \/ toc_marker (strip raw) = false ->
      chapter_open doc (fst (process_item doc (st, db) (Some raw)))
                       (snd (process_item doc (st, db) (Some raw))))
  /\ (chapter_open doc st db ->
      chapter_open doc (fst (run doc (st, db) items))
                       (snd (run doc (st, db) items))).
Proof.
  intros Ha Hc r m. split; [|split].
  - subst r. rewrite (section_and_content_article doc st db text g Ha).
    cbn [fst snd current_c_uri active_uri]. fold m.
    eexists _, _. split; [done|]. split; [done|].
    rewrite save_lookup_eq. split; [done|].
    split; [by destruct (_ !! _)|]. split; [by destruct (_ !! _)|].
    rewrite save_lookup_ne by apply article_uri_ne.
    split; [done|]. split.
    + intros (k & n & Hk & Hn & Hl). rewrite Hk. cbn [default from_option id].
      rewrite chapter_uri_truthy. split; [done|]. by exists n.
    + by intros ->.
  - intros Hgate. rewrite process_item_text.
    + by apply (loop_body_accepts doc st db (strip raw) gc).
    + intros E. by rewrite E in Hc.
  - apply run_open.
Qed.

(** *** Re-running a pass *)

Lemma overlay_lookup base pass (i : str) :
  overlay base pass !! i = overlay_row (base !! i) (pass !! i).
Proof. unfold overlay. rewrite lookup_merge. by destruct (base !! i), (pass !! i). Qed.

Lemma overlay_empty base : overlay base ∅ = base.
Proof. apply map_eq; intros i. rewrite overlay_lookup, lookup_empty. done. Qed.

Lemma overlay_idem base pass : overlay (overlay base pass) pass = overlay base pass.
Proof.
  apply map_eq; intros i. rewrite !overlay_lookup.
  by destruct (base !! i), (pass !! i) as [[]|].
Qed.

Lemma save_over base db1 db2 doc uri lbl num cont parent :
  over base db1 db2 ->
  over base (_save_node db1 doc uri lbl num cont parent)
            (_save_node db2 doc uri lbl num cont parent).
Proof.
  unfold over. intros H. apply map_eq; intros i.
  rewrite overlay_lookup. destruct (decide (uri = i)) as [<-|Hne].
  - rewrite !save_lookup_eq, H, overlay_lookup.
    by destruct (base !! uri), (legal_nodes db2 !! uri).
  - rewrite !save_lookup_ne by done. by rewrite H, overlay_lookup.
Qed.

Lemma append_over base db1 db2 frag (a : str) :
  over base db1 db2 -> is_Some (legal_nodes db2 !! a) ->
  over base (append_content db1 frag a) (append_content db2 frag a).
Proof.
  unfold over. intros H [n Hn]. apply map_eq; intros i.
  rewrite overlay_lookup. destruct (decide (a = i)) as [<-|Hne].
  - rewrite !append_lookup_eq, H, overlay_lookup, Hn.
    by destruct (base !! a).
  - rewrite !append_lookup_ne by done. by rewrite H, overlay_lookup.
Qed.

Lemma section_and_content_over base doc st db1 db2 text :
  over base db1 db2 -> active_written st db2 ->
  fst (section_and_content doc st db1 text) = fst (section_and_content doc st db2 text)
  /\ over base (snd (section_and_content doc st db1 text))
               (snd (section_and_content doc st db2 text))
  /\ active_written (fst (section_and_content doc st db2 text))
                    (snd (section_and_content doc st db2 text)).
Proof.
  intros Hov Hact. unfold Engine.section_and_content.
  destruct (a_match text) as [g|].
  - cbn [fst snd]. split; [done|]. split; [by apply save_over|].
    intros a [= <-]. rewrite save_lookup_eq. by eexists.
  - destruct (has_entered_body st && truthy (active_uri st)) eqn:E; [|done].
    destruct (noise isdecimal text); [done|]. cbn [fst snd].
    apply andb_true_iff in E as [_ E].
    destruct (active_uri st) as [a|] eqn:Ea; [|done]. cbn [default from_option id].
    split; [done|]. split; [apply append_over; auto|].
    intros a' Ha'. rewrite Ea in Ha'. injection Ha' as <-.
    destruct (Hact a Ea) as [n Hn].
    rewrite append_lookup_eq, Hn. by eexists.
Qed.

Lemma loop_body_over base doc st db1 db2 text :
  over base db1 db2 -> active_written st db2 ->
  fst (loop_body doc st db1 text) = fst (loop_body doc st db2 text)
  /\ over base (snd (loop_body doc st db1 text)) (snd (loop_body doc st db2 text))
  /\ active_written (fst (loop_body doc st db2 text)) (snd (loop_body doc st db2 text)).
Proof.
  intros Hov Hact. unfold Engine.loop_body.
  destruct (c_match text) as [g|]; [|by apply section_and_content_over].
  destruct (_ && _); [done|]. cbv zeta.
  destruct (section_split text) as [idx|].
  - apply section_and_content_over; [by apply save_over|].
    intros a [= <-]. rewrite save_lookup_eq. by eexists.
  - cbn [fst snd]. split; [done|]. split; [by apply save_over|].
    intros a [= <-]. rewrite save_lookup_eq. by eexists.
Qed.

Lemma run_over base doc items : forall st db1 db2,
  over base db1 db2 -> active_written st db2 ->
  over base (snd (run doc (st, db1) items)) (snd (run doc (st, db2) items)).
Proof.
  induction items as [|item items IH]; intros st db1 db2 Hov Hact; [done|].
  unfold Engine.run in *. cbn [fold_left].
  assert (fst (process_item doc (st, db1) item) = fst (process_item doc (st, db2) item)
          /\ over base (snd (process_item doc (st, db1) item))
                       (snd (process_item doc (st, db2) item))
          /\ active_written (fst (process_item doc (st, db2) item))
                            (snd (process_item doc (st, db2) item)))
    as (H1 & H2 & H3).
  { destruct item as [[|x raw]|]; [done| |done]. by apply loop_body_over. }
  destruct (process_item doc (st, db1) item) as [st1 d1].
  destruct (process_item doc (st, db2) item) as [st2 d2].
  cbn [fst snd] in *. subst st2. by apply IH.
Qed.

(** The nodes a pass leaves are the stored rows overlaid with what the same
    pass writes on an empty store. *)
Lemma parse_and_store_overlay db items doc md :
  legal_nodes (parse_and_store db items doc md)
  = overlay (legal_nodes db)
            (legal_nodes (snd (run doc (init_state, empty_db) items))).
Proof.
  unfold Engine.parse_and_store.
  apply (run_over (legal_nodes db) doc items init_state
           (upsert_metadata db doc md) empty_db).
  - unfold over. cbn [legal_nodes empty_db]. by rewrite overlay_empty.
  - by intros a.
Qed.

(** C3. Running [parse_and_store] again on the identical block stream leaves
    the node table exactly as the first run left it - the same rows under
    the same URIs with the same content, parent and label - whatever the
    metadata of the second run; with the same metadata the whole store is
    unchanged. What a pass writes into [label], [content] and [parent_uri]
    of the rows it touches is fixed by the stream alone, whatever was stored
    before. *)
Theorem C3_parse_and_store_idempotent db items doc md md' :
  legal_nodes (parse_and_store (parse_and_store db items doc md) items doc md')
  = legal_nodes (parse_and_store db items doc md)
  /\ parse_and_store (parse_and_store db items doc md) items doc md
     = parse_and_store db items doc md
  /\ legal_nodes (parse_and_store db items doc md)
     = overlay (legal_nodes db)
               (legal_nodes (snd (run doc (init_state, empty_db) items))).
Proof.
  split.
  { rewrite (parse_and_store_overlay (parse_and_store db items doc md)).
    rewrite (parse_and_store_overlay db). apply overlay_idem. }
  split; [|apply parse_and_store_overlay].
  assert (Heq : forall d1 d2 : database,
            legal_nodes d1 = legal_nodes d2 ->
            legal_metadata d1 = legal_metadata d2 -> d1 = d2).
  { intros [??] [??]; simpl; congruence. }
  apply Heq.
  - rewrite (parse_and_store_overlay (parse_and_store db items doc md)).
    rewrite (parse_and_store_overlay db). apply overlay_idem.
  - rewrite !parse_and_store_metadata.
    rewrite lookup_insert_eq, insert_insert_eq.
    by destruct (legal_metadata db !! doc).
Qed.

End EngineProperties.

(** ** 5. Concrete passes *)



(** The pass of the merged block of C1 without the trailing full stops:
    chapter [c1] holds exactly the prefix, article [c1/a1] the suffix. *)
Example merged_block_pass :
  legal_nodes (pass empty_db [Some (u "第一章 总则
第一条 为了规范")])
  = {[ u "/gsf/c1" := mk_node GSF (u "chapter") 1 (u "第一章 总则") None;
       u "/gsf/c1/a1" := mk_node GSF (u "section") 1 (u "第一条 为了规范")
                                 (Some (u "/gsf/c1")) ]}.
Proof. vm_compute. reflexivity. Qed.

Lemma C2_witness :
  let raw := u "第一章 总则 ...... 目录" in
  process_item ascii_lower is_ascii_digit GSF (mk_state None None false, empty_db)
    (Some raw)
  = (mk_state None None false, empty_db)
  /\ (let r := process_item ascii_lower is_ascii_digit GSF
                 (mk_state None None true, empty_db) (Some raw) in
      let c := chapter_uri ascii_lower GSF (cn_to_int (Some (u "一"))) in
      current_c_uri (fst r) = Some c
      /\ has_entered_body (fst r) = true
      /\ exists n, legal_nodes (snd r) !! c = Some n
                   /\ label n = u "chapter" /\ parent_uri n = None
                   /\ (section_split (strip raw) = None ->
                       active_uri (fst r) = Some c /\ content n = strip raw)).
Proof.
  intros raw.
  apply (C2_toc_suppression ascii_lower is_ascii_digit GSF None None empty_db
           raw (u "一")).
  - vm_compute. reflexivity.
  - vm_compute. reflexivity.
Defined.

(** The claim's example of C2 in a pass: alone, the block leaves no node;
    after an article header has been seen, it is stored as chapter 1. *)
Example toc_block_pass :
  legal_nodes (pass empty_db [Some (u "第一章 总则 ... 目录")]) = ∅
  /\ legal_nodes (pass empty_db [Some (u "第九条 甲"); Some (u "第一章 总则 ... 目录")])
       !! u "/gsf/c1"
     = Some (mk_node GSF (u "chapter") 1 (u "第一章 总则 ... 目录") None).
Proof. vm_compute. split; reflexivity. Qed.

(** C4, as stated, fails: a pass over a stream that begins with an article
    header stores the article with parent [/gsf/c1], and there is no node at
    [/gsf/c1]. *)
Lemma C4_counterexample :
  let db := pass empty_db [Some (u "第一条 为了规范")] in
  legal_nodes db !! u "/gsf/c1/a1"
  = Some (mk_node GSF (u "section") 1 (u "第一条 为了规范") (Some (u "/gsf/c1")))
  /\ legal_nodes db !! u "/gsf/c1" = None.
Proof. vm_compute. split; reflexivity. Qed.

Lemma C4_witness :
  let text := u "第一条 为了规范" in
  let raw := u "第一章 总则" in
  let st := init_state in
  let db := empty_db in
  let r := section_and_content ascii_lower is_ascii_digit GSF st db text in
  let m := article_num (u "一") in
  (exists c an,
     current_c_uri (fst r) = Some c
     /\ active_uri (fst r) = Some (c +++ u "/a" +++ str_of_int m)
     /\ legal_nodes (snd r) !! (c +++ u "/a" +++ str_of_int m) = Some an
     /\ label an = u "section" /\ parent_uri an = Some c
     /\ legal_nodes (snd r) !! c = legal_nodes db !! c
     /\ (chapter_open ascii_lower GSF st db ->
         current_c_uri st = Some c
         /\ exists cn, legal_nodes (snd r) !! c = Some cn /\ label cn = u "chapter")
     /\ (current_c_uri st = None -> c = chapter_uri ascii_lower GSF 1))
  /\ (has_entered_body st = true \/ toc_marker (strip raw) = false ->
      chapter_open ascii_lower GSF
        (fst (process_item ascii_lower is_ascii_digit GSF (st, db) (Some raw)))
        (snd (process_item ascii_lower is_ascii_digit GSF (st, db) (Some raw))))
  /\ (chapter_open ascii_lower GSF st db ->
      chapter_open ascii_lower GSF
        (fst (run ascii_lower is_ascii_digit GSF (st, db) [Some (u "第二条 乙")]))
        (snd (run ascii_lower is_ascii_digit GSF (st, db) [Some (u "第二条 乙")]))).
Proof.
  intros text raw st db.
  apply (C4_article_parent ascii_lower is_ascii_digit GSF st db text (u "一")
           [Some (u "第二条 乙")] raw (u "一")).
  - vm_compute. reflexivity.
  - vm_compute. reflexivity.
Defined.

(** A chapter header followed by two articles: both parents resolve. *)
Example chapter_then_articles_pass :
  let db := pass empty_db
              [Some (u "第二章 设立"); Some (u "第三条 甲"); Some (u "第四条 乙")] in
  parent_uri <$> legal_nodes db !! u "/gsf/c2/a3" = Some (Some (u "/gsf/c2"))
  /\ parent_uri <$> legal_nodes db !! u "/gsf/c2/a4" = Some (Some (u "/gsf/c2"))
  /\ label <$> legal_nodes db !! u "/gsf/c2" = Some (u "chapter").
Proof. vm_compute. repeat split; reflexivity. Qed.

(** C6, as stated, fails on its own example: the blocks ["第二条 A"],
    ["内容B"], ["内容C"] leave the article with the whole text of each body
    block appended, not with ["B"] and ["C"]. *)
Lemma C6_counterexample :
  let db := pass empty_db [Some (u "第二条 A"); Some (u "内容B"); Some (u "内容C")] in
  content <$> legal_nodes db !! u "/gsf/c1/a2"
  = Some (u "第二条 A
内容B
内容C")
  /\ content <$> legal_nodes db !! u "/gsf/c1/a2"
     <> Some (u "第二条 A
B
C").
Proof. vm_compute. split; [reflexivity|discriminate]. Qed.

(** Only U+000A and U+0020 are removed from a body block: a tab or an
    ideographic space inside it is kept. *)
Example fragment_keeps_other_whitespace :
  fragment (u "内 容	甲　乙") = NL :: u "内容	甲　乙".
Proof. vm_compute. reflexivity. Qed.

Lemma C6_witness :
  let st := mk_state (Some (u "/gsf/c1")) (Some (u "/gsf/c1/a2")) true in
  let a := u "/gsf/c1/a2" in
  let raws := [u "内容B"; u "第 3 页"; u " 内 容
C "] in
  let noisy := u "- 12 -" in
  let r := run ascii_lower is_ascii_digit GSF (st, article_2) (map Some raws) in
  fst r = st
  /\ legal_nodes (snd r) !! a
     = (fun n => mk_node (doc_id n) (label n) (num_val n)
                         (content n +++ concat (map fragment (kept is_ascii_digit raws)))
                         (parent_uri n))
       <$> legal_nodes article_2 !! a
  /\ delete a (legal_nodes (snd r)) = delete a (legal_nodes article_2)
  /\ process_item ascii_lower is_ascii_digit GSF (st, article_2) (Some noisy)
     = (st, article_2).
Proof.
  intros st a raws noisy.
  apply (C6_content_accrual ascii_lower is_ascii_digit GSF st article_2 a raws noisy).
  - reflexivity.
  - reflexivity.
  - vm_compute. discriminate.
  - vm_compute. reflexivity.
  - vm_compute. reflexivity.
  - vm_compute. reflexivity.
Defined.

(** The blocks of the claim's example, and a page marker in between. *)
Example accrual_pass :
  content <$> legal_nodes
    (pass empty_db [Some (u "第二条 A"); Some (u "内容B"); Some (u "第 3 页");
                    Some (u "- 12 -"); Some (u "内容C")]) !! u "/gsf/c1/a2"
  = Some (u "第二条 A
内容B
内容C").
Proof. vm_compute. reflexivity. Qed.

(** C7, as stated, fails at the chapter header: there no numeral in ASCII
    digits is detected or parsed. The block ["第12章 总则"] matches no
    boundary pattern, a pass over it stores no chapter, after an article it
    is appended to that article as text, and the normalizer of the chapter
    site reads ["12"] as 0. *)
Lemma C7_counterexample :
  let b := u "第12章 总则" in
  c_match (strip b) = None
  /\ cn_to_int (Some (u "12")) = 0
  /\ legal_nodes (pass empty_db [Some b]) = ∅
  /\ legal_nodes (pass empty_db [Some (u "第一条 甲"); Some b])
     = {[ u "/gsf/c1/a1" := mk_node GSF (u "section") 1
                                    (u "第一条 甲
第12章总则") (Some (u "/gsf/c1")) ]}.
Proof. vm_compute. repeat split. Qed.

Lemma C7_witness :
  let raw := u "第12条 公司" in
  let st := init_state in
  let db := empty_db in
  let cur := if truthy (current_c_uri st) then default [] (current_c_uri st)
             else chapter_uri ascii_lower GSF 1 in
  let uri := cur +++ u "/a" +++ str_of_int (int (u "12")) in
  let r := process_item ascii_lower is_ascii_digit GSF (st, db) (Some raw) in
  a_match (strip raw) = Some (u "12")
  /\ article_num (u "12") = int (u "12")
  /\ fst r = mk_state (Some cur) (Some uri) true
  /\ legal_nodes (snd r) !! uri
     = Some (match legal_nodes db !! uri with
             | None => mk_node GSF (u "section") (int (u "12")) (strip raw) (Some cur)
             | Some old => mk_node (doc_id old) (u "section") (num_val old)
                                   (strip raw) (Some cur)
             end)
  /\ (forall n, int (str_of_int n) = n)
  /\ isdigit (u "十二") = false
  /\ article_num (u "一百零三") = cn_to_int (Some (u "一百零三"))
  /\ c_match (DI :: u "12" +++ ZHANG :: u " 总则") = None
  /\ a_match (DI :: u "12" +++ ZHANG :: u " 总则") = None.
Proof.
  intros raw st db.
  apply (C7_ascii_digit_numerals ascii_lower is_ascii_digit GSF st db raw
           (u "12") (u " 公司") (u "第十二章 附则") (u "十二") (u "一百零三")
           (u " 总则")).
  - vm_compute. reflexivity.
  - vm_compute. reflexivity.
  - vm_compute. reflexivity.
  - vm_compute. reflexivity.
Defined.

(** An article header [第12条] is stored with [num_val] 12 at [.../a12]. *)
Example article_12_pass :
  legal_nodes (pass empty_db [Some (u "第12条 公司")]) !! u "/gsf/c1/a12"
  = Some (mk_node GSF (u "section") 12 (u "第12条 公司") (Some (u "/gsf/c1"))).
Proof. vm_compute. reflexivity. Qed.

(** A second header for a stored address resets the accumulated content. *)
Example repeated_header_pass :
  content <$> legal_nodes
    (pass empty_db [Some (u "第一条 A"); Some (u "内容B"); Some (u "第一条 C")])
    !! u "/gsf/c1/a1"
  = Some (u "第一条 C").
Proof. vm_compute. reflexivity. Qed.

(** C10, as stated, fails: a second run for the same [doc_id] with new
    metadata replaces the title and keeps the stored creator and date. *)
Lemma C10_counterexample :
  let md2 := mk_metadata (u "公司法") (u "国务院") (u "2024-07-01") in
  let db2 := parse_and_store ascii_lower is_ascii_digit (pass empty_db []) [] GSF md2 in
  legal_metadata db2 !! GSF
  = Some (mk_meta (u "公司法") (u "全国人大常委会") (u "2023-12-29"))
  /\ legal_metadata db2 !! GSF
     <> Some (mk_meta (u "公司法") (u "国务院") (u "2024-07-01")).
Proof. vm_compute. split; [reflexivity|discriminate]. Qed.

(** Two runs over one stream, on a store that already holds a row. *)
Example rerun_pass :
  let items := [Some (u "第一章 总则"); Some (u "第一条 甲"); Some (u "内容乙");
                Some (u "第一条 丙"); Some (u "内容丁")] in
  let db0 := pass empty_db [Some (u "第一条 旧"); Some (u "内容旧")] in
  pass (pass db0 items) items = pass db0 items.
Proof. vm_compute. reflexivity. Qed.

(** * Further properties of [lii_processor.py] *)

(** ** The numeral normalizer across a marker *)

Lemma cn_loop_shift (s : str) : forall r a t,
  fold_left cn_loop_body s (r + a, t)
  = (r + fst (fold_left cn_loop_body s (a, t)),
     snd (fold_left cn_loop_body s (a, t))).
Proof.
  induction s as [|c s IH]; intros r a t; [done|].
  cbn [fold_left]. unfold cn_loop_body at 2 4 6.
  destruct (c =? BAI); [rewrite <- N.add_assoc; apply IH|].
  destruct (c =? SHI); [rewrite <- N.add_assoc; apply IH|].
  apply IH.
Qed.

Lemma cn_to_int_fold (s : str) :
  cn_to_int (Some s)
  = fst (fold_left cn_loop_body s (0, 0)) + snd (fold_left cn_loop_body s (0, 0)).
Proof.
  destruct s as [|c s]; [done|]. unfold cn_to_int.
  by destruct (fold_left cn_loop_body (c :: s) (0, 0)).
Qed.

(** X1. The value is additive across a marker: for [m] one of [百], [十], the
    value of [s1 m s2] is the value of [s1 m] plus the value of [s2], for
    arbitrary strings [s1] and [s2] (a marker leaves no pending digit). *)
Theorem cn_to_int_marker_additive (s1 s2 : str) (m : char) :
  m = BAI \/ m = SHI ->
  cn_to_int (Some (s1 +++ m :: s2))
  = cn_to_int (Some (s1 +++ [m])) + cn_to_int (Some s2).
Proof.
  intros Hm. rewrite !cn_to_int_fold.
  replace (s1 +++ m :: s2) with ((s1 +++ [m]) +++ s2) by by rewrite <- app_assoc.
  rewrite (fold_left_app cn_loop_body (s1 +++ [m]) s2).
  assert (exists r, fold_left cn_loop_body (s1 +++ [m]) (0, 0) = (r, 0)) as [r Hr].
  { rewrite fold_left_app. cbn [fold_left].
    destruct (fold_left cn_loop_body s1 (0, 0)) as [r0 t0].
    destruct Hm as [-> | ->]; vm_compute cn_loop_body; by eexists. }
  rewrite Hr. cbn [fst snd].
  replace (r, 0) with (r + 0, 0) by (f_equal; lia).
  rewrite cn_loop_shift. cbn [fst snd]. lia.
Qed.

Lemma cn_to_int_marker_additive_witness :
  cn_to_int (Some (u "三百" +++ u "二十一"))
  = cn_to_int (Some (u "三百")) + cn_to_int (Some (u "二十一")).
Proof.
  apply (cn_to_int_marker_additive (u "三") (u "二十一") BAI). by left.
Defined.

(** ** Addresses *)

Lemma uint_chars_digits (d : Decimal.uint) :
  forallb is_ascii_digit (uint_chars d) = true.
Proof. induction d; cbn [uint_chars forallb]; [done | by rewrite IHd ..]. Qed.

Lemma str_of_int_inj (n m : N) : str_of_int n = str_of_int m -> n = m.
Proof. intros H. apply (f_equal int) in H. by rewrite !int_str_of_int in H. Qed.

Lemma str_of_int_no_slash (n : N) : 47 ∉ str_of_int n.
Proof.
  unfold str_of_int. pose proof (uint_chars_digits (N.to_uint n)) as H.
  rewrite forallb_forall in H. intros Hin.
  apply list_elem_of_In, H in Hin. discriminate.
Qed.

Lemma app_sep_inj (x : char) (l1 r1 l2 r2 : str) :
  x ∉ l1 -> x ∉ l2 -> l1 +++ x :: r1 = l2 +++ x :: r2 -> l1 = l2 /\ r1 = r2.
Proof.
  revert l2. induction l1 as [|a l1 IH]; intros [|b l2] H1 H2 E; simpl in E.
  - by injection E.
  - injection E as <- _. exfalso. apply H2. left.
  - injection E as -> _. exfalso. apply H1. left.
  - injection E as -> E. destruct (IH l2) as [-> ->]; [| |done|done].
    + intros ?. apply H1. by right.
    + intros ?. apply H2. by right.
Qed.

Section Addresses.

Variable lower : str -> str.

Local Abbreviation chapter_uri := (chapter_uri lower).

(** X2. Within a document, addresses name their node: two chapter numbers
    give the same chapter address only when equal, two pairs of chapter and
    article number give the same article address only when equal, and no
    chapter address is an article address. *)
Theorem uri_unique doc (k k' m m' : N) :
  (chapter_uri doc k = chapter_uri doc k' <-> k = k')
  /\ (chapter_uri doc k +++ u "/a" +++ str_of_int m
      = chapter_uri doc k' +++ u "/a" +++ str_of_int m'
      <-> k = k' /\ m = m')
  /\ chapter_uri doc k <> chapter_uri doc k' +++ u "/a" +++ str_of_int m'.
Proof.
  unfold Engine.chapter_uri. rewrite u_slash_a.
  split; [|split].
  - split; [|by intros ->].
    intros E. by apply app_inv_head, app_inv_head, app_inv_head, str_of_int_inj in E.
  - split; [|by intros [-> ->]].
    rewrite <- !app_assoc. intros E.
    apply app_inv_head, app_inv_head, app_inv_head in E.
    apply (app_sep_inj 47) in E as [Ek Em]; [|apply str_of_int_no_slash..].
    apply str_of_int_inj in Ek. injection Em as Em.
    by apply str_of_int_inj in Em.
  - rewrite <- !app_assoc. intros E.
    apply app_inv_head, app_inv_head, app_inv_head in E.
    apply (str_of_int_no_slash k). rewrite E.
    apply elem_of_app. right. left.
Qed.

End Addresses.

(** ** Blocks that are not headers *)

Lemma match_header_stopped (cls : char -> bool) (closer stop : char)
    (pre tail : str) :
  (forall c, c ∈ pre -> c <> closer) -> cls stop = false -> stop <> closer ->
  match_header cls closer (DI :: pre +++ stop :: tail) = None.
Proof.
  intros Hpre Hstop Hne. unfold match_header. rewrite N.eqb_refl.
  assert (Hd : match dropwhile cls (pre +++ stop :: tail) with
               | [] => False
               | d :: _ => d <> closer
               end).
  { induction pre as [|x pre IH]; cbn [app dropwhile].
    - by rewrite Hstop.
    - destruct (cls x).
      + apply IH. intros c Hc. apply Hpre. by right.
      + apply Hpre. left. }
  destruct (takewhile cls _); [done|].
  destruct (dropwhile cls _) as [|d ?]; [done|].
  by destruct (N.eqb_spec d closer).
Qed.

Lemma forallb_dropwhile (p : char -> bool) (l : str) :
  forallb p l = true -> dropwhile p l = [].
Proof.
  induction l as [|x l IH]; [done|]. cbn [forallb dropwhile].
  intros [-> Hl]%andb_true_iff. auto.
Qed.

Lemma startswith_app_r (p s r : str) :
  startswith p s = true -> startswith p (s +++ r) = true.
Proof.
  revert s. induction p as [|a p IH]; intros [|b s]; cbn [startswith app]; try done.
  intros [-> H]%andb_true_iff. cbn [andb]. auto.
Qed.

Lemma dot_star_then_app (closer : char) (s r : str) :
  dot_star_then closer s = true -> dot_star_then closer (s +++ r) = true.
Proof.
  induction s as [|x s IH]; [done|]. cbn [dot_star_then app].
  destruct (x =? closer); [done|]. cbn [orb].
  intros [-> H]%andb_true_iff. cbn [andb]. auto.
Qed.

Section MoreEngineProperties.

Variable lower : str -> str.
Variable isdecimal : char -> bool.

Local Abbreviation chapter_uri := (chapter_uri lower).
Local Abbreviation section_and_content := (section_and_content lower isdecimal).
Local Abbreviation loop_body := (loop_body lower isdecimal).
Local Abbreviation process_item := (process_item lower isdecimal).
Local Abbreviation run := (run lower isdecimal).
Local Abbreviation parse_and_store := (parse_and_store lower isdecimal).
Local Abbreviation noise := (noise isdecimal).
Local Abbreviation kept := (kept isdecimal).

(** X3. A header numeral that contains [零] is not recognised: the classes
    of both boundary patterns leave [零] out (although [CN_NUM] reads it), so
    a block such as [第一百零五条 ...] matches neither pattern and, in the
    body, is treated as text of the active node. *)
Theorem zero_numeral_not_header doc st db (raw pre tail a : str) :
  strip raw = DI :: pre +++ LING :: tail ->
  forallb num_class pre = true ->
  has_entered_body st = true -> active_uri st = Some a -> a <> [] ->
  c_match (strip raw) = None
  /\ a_match (strip raw) = None
  /\ process_item doc (st, db) (Some raw)
     = (st, if noise (strip raw) then db
            else append_content db (fragment raw) a).
Proof.
  intros Hraw Hpre He Ha Hne.
  assert (Hin : forall closer, num_class closer = false ->
                  forall c, c ∈ pre -> c <> closer).
  { intros closer Hcl c Hc ->. rewrite forallb_forall in Hpre.
    apply list_elem_of_In, Hpre in Hc. congruence. }
  assert (Hc : c_match (strip raw) = None).
  { rewrite Hraw. apply match_header_stopped; [by apply Hin|done|done]. }
  assert (Hm : a_match (strip raw) = None).
  { rewrite Hraw. apply match_header_stopped; [by apply Hin|done|done]. }
  split; [done|]. split; [done|].
  apply process_item_body; [|done..].
  destruct raw as [|x raw]; [by rewrite strip_nil in Hraw|].
  unfold body_block. by rewrite Hc, Hm.
Qed.

(** X4. An item without text or with an empty text is skipped: it changes
    neither the store nor the engine state. A block of whitespace only is
    not: its stripped text is empty, and in the body it appends a bare
    newline to the content of the active node. *)
Theorem blank_block_appends_newline doc st db (raw a : str) :
  raw <> [] -> forallb isspace raw = true ->
  has_entered_body st = true -> active_uri st = Some a -> a <> [] ->
  let r := process_item doc (st, db) (Some raw) in
  strip raw = []
  /\ r = (st, append_content db [NL] a)
  /\ content <$> legal_nodes (snd r) !! a
     = (fun c => c +++ [NL]) <$> (content <$> legal_nodes db !! a)
  /\ process_item doc (st, db) (Some []) = (st, db)
  /\ process_item doc (st, db) None = (st, db).
Proof.
  intros Hne Hws He Ha Hane r.
  assert (Hs : strip raw = []).
  { unfold strip, lstrip. by rewrite forallb_dropwhile. }
  assert (Hr : r = (st, append_content db [NL] a)).
  { subst r. rewrite (process_item_body lower isdecimal doc st db raw a); try done.
    - unfold fragment. by rewrite Hs.
    - destruct raw as [|x raw]; [done|]. unfold body_block. by rewrite Hs. }
  split; [done|]. split; [done|]. rewrite Hr. cbn [snd].
  split; [|done]. rewrite append_lookup_eq.
  by destruct (legal_nodes db !! a).
Qed.
Lemma ws_dash_app (s r : str) : ws_dash s = true -> ws_dash (s +++ r) = true.
Proof.
  induction s as [|x s IH]; [done|]. cbn [ws_dash app].
  destruct (x =? DASH); [done|]. cbn [orb].
  intros [-> H]%andb_true_iff. cbn [andb]. auto.
Qed.

Lemma digits_ws_dash_app (s r : str) :
  digits_ws_dash isdecimal s = true -> digits_ws_dash isdecimal (s +++ r) = true.
Proof.
  induction s as [|x s IH]; [done|]. cbn [digits_ws_dash app].
  intros [-> [H|H]%orb_true_iff]%andb_true_iff; cbn [andb].
  - by rewrite IH.
  - rewrite (ws_dash_app s r H). apply orb_true_r.
Qed.

Lemma ws_digits_ws_dash_app (s r : str) :
  ws_digits_ws_dash isdecimal s = true ->
  ws_digits_ws_dash isdecimal (s +++ r) = true.
Proof.
  induction s as [|x s IH]; [done|].
  cbn [ws_digits_ws_dash].
  intros [H|[Hx H]%andb_true_iff]%orb_true_iff.
  - change ((x :: s) +++ r) with (x :: (s +++ r)). cbn [ws_digits_ws_dash].
    change (x :: (s +++ r)) with ((x :: s) +++ r).
    by rewrite (digits_ws_dash_app (x :: s) r H).
  - change ((x :: s) +++ r) with (x :: (s +++ r)). cbn [ws_digits_ws_dash].
    rewrite Hx, IH by done. apply orb_true_r.
Qed.

(** X5. The noise test looks at the head of the text only: a text that is
    noise stays noise whatever is appended to it, so a block that begins
    with a page marker, a citation or the title line is dropped with all the
    text that follows in the same block. *)
Theorem noise_extends (text more : str) :
  noise text = true -> noise (text +++ more) = true.
Proof.
  unfold Engine.noise.
  intros H. repeat apply orb_true_iff in H as [H|H];
    try (by rewrite (startswith_app_r _ _ more H), ?orb_true_r).
  destruct text as [|c rest]; [done|]. cbn [app].
  apply orb_true_iff in H as [[-> H]%andb_true_iff|[-> H]%andb_true_iff].
  - rewrite (dot_star_then_app _ _ more H). cbn [andb orb]. apply orb_true_r.
  - rewrite (ws_digits_ws_dash_app _ more H). cbn [andb]. by rewrite !orb_true_r.
Qed.

Lemma run_preamble doc st db (raws : list (list N)) :
  has_entered_body st = false ->
  forallb body_block raws = true ->
  run doc (st, db) (map Some raws) = (st, db).
Proof.
  intros He. induction raws as [|raw raws IH]; [done|].
  cbn [forallb]. intros [Hb Hall]%andb_true_iff.
  unfold Engine.run in *. cbn [map fold_left].
  assert (process_item doc (st, db) (Some raw) = (st, db)) as ->; [|auto].
  unfold body_block in Hb. destruct raw as [|x raw]; [done|].
  rewrite process_item_nonempty by done. unfold Engine.loop_body.
  destruct (c_match (strip (x :: raw))); [done|].
  unfold Engine.section_and_content.
  destruct (a_match (strip (x :: raw))); [done|].
  by rewrite He.
Qed.

(** X6. Text before the body is discarded: while no article header has been
    accepted, blocks that match neither boundary pattern change neither the
    store nor the engine state. An accepted chapter header does not enter
    the body, so the blocks that follow it before the first article are
    lost too: after the header and those blocks the chapter is current and
    active, [has_entered_body] is still false, and the chapter node holds
    the header text alone. *)
Theorem preamble_discarded doc st db (rawc g : str) (raws : list (list N)) :
  has_entered_body st = false ->
  forallb body_block raws = true ->
  c_match (strip rawc) = Some g ->
  section_split (strip rawc) = None ->
  toc_marker (strip rawc) = false ->
  run doc (st, db) (map Some raws) = (st, db)
  /\ (let c := chapter_uri doc (cn_to_int (Some g)) in
      let r := run doc (st, db) (Some rawc :: map Some raws) in
      fst r = mk_state (Some c) (Some c) false
      /\ snd r = _save_node db doc c (u "chapter") (cn_to_int (Some g))
                            (strip rawc) None
      /\ content <$> legal_nodes (snd r) !! c = Some (strip rawc)).
Proof.
  intros He Hall Hc Hs Htoc. split; [by apply run_preamble|].
  intros c r. subst r.
  assert (Hne : strip rawc <> []) by (intros E; by rewrite E in Hc).
  change (run doc (st, db) (Some rawc :: map Some raws))
    with (run doc (process_item doc (st, db) (Some rawc)) (map Some raws)).
  rewrite process_item_text by done. unfold Engine.loop_body.
  unfold toc_marker in Htoc. rewrite Hc, Hs, He, Htoc. cbn [negb andb]. fold c.
  rewrite run_preamble by done. cbn [fst snd].
  split; [done|]. split; [done|].
  rewrite save_lookup_eq. by destruct (_ !! c).
Qed.

(** X7. Once the body has been entered, a chapter header (with no article
    merged into it) becomes the active node: the body blocks that follow it
    are appended to the chapter node, not to the article before it. *)
Theorem text_after_chapter_header doc st db (raw g : str) (raws : list (list N)) :
  has_entered_body st = true ->
  c_match (strip raw) = Some g ->
  section_split (strip raw) = None ->
  forallb body_block raws = true ->
  let r := run doc (st, db) (Some raw :: map Some raws) in
  let c := chapter_uri doc (cn_to_int (Some g)) in
  current_c_uri (fst r) = Some c
  /\ active_uri (fst r) = Some c
  /\ content <$> legal_nodes (snd r) !! c
     = Some (strip raw +++ concat (map fragment (kept raws))).
Proof.
  intros He Hc Hs Hall r c. subst r.
  assert (Hne : strip raw <> []) by (intros E; by rewrite E in Hc).
  change (run doc (st, db) (Some raw :: map Some raws))
    with (run doc (process_item doc (st, db) (Some raw)) (map Some raws)).
  rewrite process_item_text by done. unfold Engine.loop_body.
  rewrite Hc, Hs, He. cbn [negb andb]. fold c.
  rewrite (run_body lower isdecimal doc _ c raws); [|done|done|done|].
  - cbn [fst snd current_c_uri active_uri]. split; [done|]. split; [done|].
    rewrite appends_lookup_eq, save_lookup_eq. by destruct (_ !! c).
  - intros E. pose proof (chapter_uri_truthy lower doc (cn_to_int (Some g))) as Ht.
    fold c in Ht. by rewrite E in Ht.
Qed.

(** *** The engine's variables along a pass *)

Lemma section_and_content_state doc st db text :
  (state_shape lower doc st -> state_shape lower doc (fst (section_and_content doc st db text)))
  /\ (has_entered_body st = true ->
      has_entered_body (fst (section_and_content doc st db text)) = true)
  /\ forall db', fst (section_and_content doc st db' text)
                 = fst (section_and_content doc st db text).
Proof.
  unfold Engine.section_and_content.
  destruct (a_match text) as [g|].
  - cbn [fst]. split; [|done]. intros Hs. unfold state_shape in *.
    cbn [current_c_uri active_uri].
    destruct (current_c_uri st) as [c|].
    + destruct Hs as [[k ->] _]. rewrite chapter_uri_truthy.
      cbn [default from_option id]. split; [by eexists|]. right. by eexists.
    + cbn [truthy]. split; [by eexists|]. right. by eexists.
  - split; [|split].
    + intros Hs. destruct (_ && _); [|done]. by destruct (Engine.noise _ _).
    + intros He. destruct (_ && _); [|done]. by destruct (Engine.noise _ _).
    + intros db'. destruct (_ && _); [|done]. by destruct (Engine.noise _ _).
Qed.

Lemma loop_body_state doc st db text :
  (state_shape lower doc st -> state_shape lower doc (fst (loop_body doc st db text)))
  /\ (has_entered_body st = true ->
      has_entered_body (fst (loop_body doc st db text)) = true)
  /\ forall db', fst (loop_body doc st db' text) = fst (loop_body doc st db text).
Proof.
  unfold Engine.loop_body.
  destruct (c_match text) as [g|]; [|apply section_and_content_state].
  destruct (negb (has_entered_body st) && _); [done|]. cbv zeta.
  set (c := chapter_uri doc (cn_to_int (Some g))).
  assert (Hst1 : forall e, state_shape lower doc (mk_state (Some c) (Some c) e)).
  { intros e. unfold state_shape. cbn [current_c_uri active_uri].
    split; [by eexists|by left]. }
  destruct (section_split text) as [idx|].
  - split; [|split].
    + intros _. by apply section_and_content_state.
    + intros He. apply section_and_content_state. by rewrite He.
    + intros db'.
      by rewrite (proj2 (proj2 (section_and_content_state doc _
                   (_save_node db doc c (u "chapter") (cn_to_int (Some g))
                               (strip (take idx text)) None) _))).
  - by cbn [fst has_entered_body].
Qed.

Lemma process_item_state doc st db item :
  (state_shape lower doc st -> state_shape lower doc (fst (process_item doc (st, db) item)))
  /\ (has_entered_body st = true ->
      has_entered_body (fst (process_item doc (st, db) item)) = true)
  /\ forall db', fst (process_item doc (st, db') item)
                 = fst (process_item doc (st, db) item).
Proof.
  destruct item as [[|x raw]|]; [done| |done]. apply loop_body_state.
Qed.

Lemma run_state doc items : forall st db,
  (state_shape lower doc st -> state_shape lower doc (fst (run doc (st, db) items)))
  /\ (has_entered_body st = true ->
      has_entered_body (fst (run doc (st, db) items)) = true)
  /\ forall db', fst (run doc (st, db') items) = fst (run doc (st, db) items).
Proof.
  induction items as [|item items IH]; intros st db; [done|].
  assert (Hc : forall d, run doc (st, d) (item :: items)
                         = run doc (process_item doc (st, d) item) items) by done.
  destruct (process_item_state doc st db item) as (H1 & H2 & H3).
  rewrite Hc. destruct (process_item doc (st, db) item) as [st1 db1] eqn:E.
  cbn [fst] in *. destruct (IH st1 db1) as (I1 & I2 & I3).
  split; [auto|]. split; [auto|].
  intros db'. rewrite Hc. specialize (H3 db').
  destruct (process_item doc (st, db') item) as [st2 db2]. cbn [fst] in H3.
  subst st2. apply I3.
Qed.

(** X8. The engine's three variables keep their shape along a pass: until
    the first accepted header no URI is set and the body is not entered;
    afterwards the current chapter URI is a chapter address
    [/<doc_id.lower()>/c<k>] of this document and the active URI is that
    address or an article address [.../a<m>] under it. *)
Theorem state_shape_kept doc st db (items : list (option str)) :
  state_shape lower doc st ->
  state_shape lower doc (fst (run doc (st, db) items)).
Proof. apply run_state. Qed.

(** X9. [has_entered_body] is never cleared: once an article header has been
    accepted, it stays set for the rest of the pass, so the table-of-contents
    filter cannot fire again. *)
Theorem entered_body_stays doc st db (items : list (option str)) :
  has_entered_body st = true ->
  has_entered_body (fst (run doc (st, db) items)) = true.
Proof. apply run_state. Qed.

(** X10. The engine never reads the store: which headers it accepts and
    which addresses it derives for a stream do not depend on the rows
    already stored. *)
Theorem state_independent_of_store doc st (db1 db2 : database)
    (items : list (option str)) :
  fst (run doc (st, db1) items) = fst (run doc (st, db2) items).
Proof. apply run_state. Qed.

(** *** What a pass leaves alone *)

Lemma rows_kept_refl m : rows_kept m m.
Proof. intros uri old H. by exists old. Qed.

Lemma rows_kept_trans m1 m2 m3 : rows_kept m1 m2 -> rows_kept m2 m3 -> rows_kept m1 m3.
Proof.
  intros H12 H23 uri old H. destruct (H12 uri old H) as (n & Hn & Hd & Hv).
  destruct (H23 uri n Hn) as (n' & Hn' & Hd' & Hv').
  exists n'. split; [done|]. split; congruence.
Qed.

Lemma save_rows_kept db doc uri lbl num cont parent :
  rows_kept (legal_nodes db) (legal_nodes (_save_node db doc uri lbl num cont parent)).
Proof.
  intros i old H. destruct (decide (uri = i)) as [<-|Hne].
  - rewrite save_lookup_eq, H. by eexists.
  - rewrite save_lookup_ne by done. by exists old.
Qed.

Lemma append_rows_kept db frag (a : str) :
  rows_kept (legal_nodes db) (legal_nodes (append_content db frag a)).
Proof.
  intros i old H. destruct (decide (a = i)) as [<-|Hne].
  - rewrite append_lookup_eq, H. by eexists.
  - rewrite append_lookup_ne by done. by exists old.
Qed.

Lemma section_and_content_rows_kept doc st db text :
  rows_kept (legal_nodes db) (legal_nodes (snd (section_and_content doc st db text))).
Proof.
  unfold Engine.section_and_content. destruct (a_match text).
  - apply save_rows_kept.
  - destruct (_ && _); [|apply rows_kept_refl].
    destruct (Engine.noise _ _); [apply rows_kept_refl|apply append_rows_kept].
Qed.

Lemma process_item_rows_kept doc st db item :
  rows_kept (legal_nodes db) (legal_nodes (snd (process_item doc (st, db) item))).
Proof.
  destruct item as [[|x raw]|]; [apply rows_kept_refl| |apply rows_kept_refl].
  cbn [Engine.process_item fst snd]. unfold Engine.loop_body.
  destruct (c_match _); [|apply section_and_content_rows_kept].
  destruct (_ && _); [apply rows_kept_refl|]. cbv zeta.
  destruct (section_split _); [|apply save_rows_kept].
  eapply rows_kept_trans; [apply save_rows_kept|apply section_and_content_rows_kept].
Qed.

(** X11. A pass deletes nothing and re-labels no owner: every row stored
    before [parse_and_store] is still stored afterwards under its URI, with
    the [doc_id] and [num_val] it had. *)
Theorem pass_keeps_rows db (items : list (option str)) doc md :
  rows_kept (legal_nodes db) (legal_nodes (parse_and_store db items doc md)).
Proof.
  unfold Engine.parse_and_store.
  change (legal_nodes db) with (legal_nodes (upsert_metadata db doc md)).
  generalize (upsert_metadata db doc md) init_state. clear db.
  induction items as [|item items IH]; intros db st; [apply rows_kept_refl|].
  change (run doc (st, db) (item :: items))
    with (run doc (process_item doc (st, db) item) items).
  pose proof (process_item_rows_kept doc st db item) as H.
  destruct (process_item doc (st, db) item) as [st1 db1]. cbn [snd] in H.
  eapply rows_kept_trans; [apply H|apply IH].
Qed.

Lemma startswith_app_refl (p r : str) : startswith p (p +++ r) = true.
Proof. induction p as [|a p IH]; [done|]. cbn [startswith app]. by rewrite N.eqb_refl. Qed.

Lemma chapter_uri_prefix doc k :
  startswith (uri_prefix lower doc) (chapter_uri doc k) = true.
Proof.
  unfold uri_prefix, Engine.chapter_uri.
  replace (u "/" +++ lower doc +++ u "/c" +++ str_of_int k)
    with ((u "/" +++ lower doc +++ u "/c") +++ str_of_int k)
    by by rewrite <- !app_assoc.
  apply startswith_app_refl.
Qed.

Lemma section_and_content_frame doc st db text (uri : str) :
  state_shape lower doc st ->
  startswith (uri_prefix lower doc) uri = false ->
  legal_nodes (snd (section_and_content doc st db text)) !! uri
  = legal_nodes db !! uri.
Proof.
  intros Hs Hp.
  assert (Hpre : forall a, startswith (uri_prefix lower doc) a = true -> a <> uri)
    by (intros a Ha ->; congruence).
  unfold Engine.section_and_content. destruct (a_match text) as [g|].
  - cbn [snd]. apply save_lookup_ne, Hpre, startswith_app_r.
    unfold state_shape in Hs. destruct (current_c_uri st) as [c|].
    + destruct Hs as [[k ->] _]. rewrite chapter_uri_truthy.
      apply chapter_uri_prefix.
    + apply chapter_uri_prefix.
  - destruct (has_entered_body st && truthy (active_uri st)) eqn:E; [|done].
    destruct (Engine.noise _ _); [done|]. cbn [snd].
    apply append_lookup_ne, Hpre.
    apply andb_true_iff in E as [_ E].
    unfold state_shape in Hs. destruct (current_c_uri st) as [c|].
    + destruct Hs as [[k ->] [-> | [m ->]]]; cbn [default from_option id].
      * apply chapter_uri_prefix.
      * apply startswith_app_r, chapter_uri_prefix.
    + destruct Hs as [Ha _]. by rewrite Ha in E.
Qed.

Lemma process_item_frame doc st db item (uri : str) :
  state_shape lower doc st ->
  startswith (uri_prefix lower doc) uri = false ->
  legal_nodes (snd (process_item doc (st, db) item)) !! uri = legal_nodes db !! uri.
Proof.
  intros Hs Hp.
  assert (Hpre : forall a, startswith (uri_prefix lower doc) a = true -> a <> uri)
    by (intros a Ha ->; congruence).
  destruct item as [[|x raw]|]; [done| |done].
  cbn [Engine.process_item fst snd]. unfold Engine.loop_body.
  destruct (c_match _) as [g|]; [|by apply section_and_content_frame].
  destruct (_ && _); [done|]. cbv zeta.
  destruct (section_split _) as [idx|].
  - rewrite section_and_content_frame; [|
      unfold state_shape; cbn [current_c_uri active_uri];
      split; [by eexists|by left] | done].
    apply save_lookup_ne, Hpre, chapter_uri_prefix.
  - cbn [snd]. apply save_lookup_ne, Hpre, chapter_uri_prefix.
Qed.

(** X12. A pass writes under the document's own address head only: a row
    whose URI does not begin with [/<doc_id.lower()>/c] - the row of any
    other document - is neither created nor changed by [parse_and_store]. *)
Theorem pass_touches_own_addresses db (items : list (option str)) doc md
    (uri : str) :
  startswith (uri_prefix lower doc) uri = false ->
  legal_nodes (parse_and_store db items doc md) !! uri = legal_nodes db !! uri.
Proof.
  intros Hp. unfold Engine.parse_and_store.
  change (legal_nodes db) with (legal_nodes (upsert_metadata db doc md)).
  assert (Hs : state_shape lower doc init_state) by done.
  revert Hs. generalize (upsert_metadata db doc md) init_state. clear db.
  induction items as [|item items IH]; intros db st Hs; [done|].
  change (run doc (st, db) (item :: items))
    with (run doc (process_item doc (st, db) item) items).
  pose proof (process_item_frame doc st db item uri Hs Hp) as H.
  pose proof (proj1 (process_item_state doc st db item) Hs) as Hs'.
  destruct (process_item doc (st, db) item) as [st1 db1]. cbn [fst snd] in *.
  rewrite <- H. by apply IH.
Qed.

End MoreEngineProperties.

(** * Properties of [law_regex_parser.py] *)

(** ** Splitting *)

Lemma startswith_drop (p s : str) :
  startswith p s = true -> s = p +++ drop (length p) s.
Proof.
  revert s. induction p as [|a p IH]; intros [|b s]; cbn [startswith]; try done.
  intros [->%N.eqb_eq H]%andb_true_iff. cbn [length app]. change (drop (S ?n) (b :: s)) with (drop n s).
  f_equal. auto.
Qed.

Lemma partition_spec (sep : str) (s : str) : forall a b,
  partition sep s = Some (a, b) -> s = a +++ sep +++ b.
Proof.
  induction s as [|c s IH]; intros a b; cbn [partition].
  - destruct (startswith sep []) eqn:E; [|done].
    intros [= <- <-]. by apply startswith_drop.
  - destruct (startswith sep (c :: s)) eqn:E.
    + intros [= <- <-]. by apply startswith_drop.
    + destruct (partition sep s) as [[a' b']|]; [|done].
      intros [= <- <-]. cbn [app]. f_equal. by apply IH.
Qed.

Lemma partition_contains (sep s : str) :
  contains sep s = bool_decide (is_Some (partition sep s)).
Proof.
  induction s as [|c s IH]; cbn [contains partition].
  - destruct (startswith sep []); cbn [orb].
    + by rewrite bool_decide_eq_true_2 by by eexists.
    + by rewrite bool_decide_eq_false_2 by by intros [? ?].
  - destruct (startswith sep (c :: s)); cbn [orb].
    + by rewrite bool_decide_eq_true_2 by by eexists.
    + rewrite IH. destruct (partition sep s) as [[a b]|].
      * by rewrite !bool_decide_eq_true_2 by by eexists.
      * by rewrite !bool_decide_eq_false_2 by by intros [? ?].
Qed.

Lemma partition_shorter (sep s a b : str) :
  sep <> [] -> partition sep s = Some (a, b) -> (length b < length s)%nat.
Proof.
  intros Hne H. apply partition_spec in H. subst s.
  rewrite !length_app. destruct sep; [done|]. cbn [length]. lia.
Qed.

Lemma split_fuel_enough (sep : str) (n : nat) : forall m s,
  sep <> [] -> (length s <= n)%nat -> (length s <= m)%nat ->
  split_fuel n sep s = split_fuel m sep s.
Proof.
  induction n as [|n IH]; intros m s Hne Hn Hm.
  - destruct s; [|cbn [length] in Hn; lia].
    destruct m; cbn [split_fuel]; [done|].
    destruct (partition sep []) as [[a b]|] eqn:E; [|done].
    apply partition_shorter in E; [cbn [length] in E; lia|done].
  - destruct m; cbn [split_fuel].
    + destruct s; [|cbn [length] in Hm; lia].
      destruct (partition sep []) as [[a b]|] eqn:E; [|done].
      apply partition_shorter in E; [cbn [length] in E; lia|done].
    + destruct (partition sep s) as [[a b]|] eqn:E; [|done].
      f_equal. pose proof (partition_shorter _ _ _ _ Hne E).
      apply IH; [done|lia|lia].
Qed.

(** [split] cuts at the first occurrence and goes on after it. *)
Lemma split_unfold (sep s : str) :
  sep <> [] ->
  split sep s = match partition sep s with
                | None => [s]
                | Some (a, b) => a :: split sep b
                end.
Proof.
  intros Hne. unfold split. destruct s as [|c s].
  - cbn [length split_fuel]. destruct (partition sep []) as [[a b]|] eqn:E; [|done].
    apply partition_shorter in E; [cbn [length] in E; lia|done].
  - cbn [length split_fuel]. destruct (partition sep (c :: s)) as [[a b]|] eqn:E; [|done].
    f_equal. pose proof (partition_shorter _ _ _ _ Hne E) as Hl. cbn [length] in Hl.
    apply split_fuel_enough; [done|lia|lia].
Qed.

Lemma split_head (sep s : str) : exists x xs, split sep s = x :: xs.
Proof.
  unfold split. destruct (length s); cbn [split_fuel]; [by eexists _, _|].
  destruct (partition sep s) as [[a b]|]; by eexists _, _.
Qed.

Lemma partition_here (sep t : str) : partition sep (sep +++ t) = Some ([], t).
Proof.
  assert (H : startswith sep (sep +++ t) = true).
  { induction sep as [|a p IH]; [done|]. cbn [startswith app]. by rewrite N.eqb_refl. }
  destruct (sep +++ t) as [|c r] eqn:E; cbn [partition]; rewrite H; f_equal; f_equal.
  - destruct sep; [|done]. by destruct t.
  - rewrite <- E. by rewrite drop_app_length.
Qed.

Lemma partition_first (h : char) (sep' l t : str) :
  free_of [h] l = true ->
  partition (h :: sep') (l +++ t)
  = match partition (h :: sep') t with
    | Some (a, b) => Some (l +++ a, b)
    | None => None
    end.
Proof.
  intros Hl. induction l as [|c l IH]; cbn [app].
  - by destruct (partition (h :: sep') t) as [[a b]|].
  - cbn [free_of forallb existsb] in Hl. apply andb_true_iff in Hl as [Hc Hl].
    rewrite orb_false_r in Hc. apply negb_true_iff in Hc.
    cbn [partition startswith]. rewrite N.eqb_sym, Hc. cbn [andb].
    rewrite (IH Hl). by destruct (partition (h :: sep') t) as [[a b]|].
Qed.

Lemma last_content_app (msgs : list (list N)) (m : str) :
  last_content (msgs ++ [m]) = Some m.
Proof.
  induction msgs as [|x msgs IH]; [done|]. cbn [app last_content].
  destruct (msgs ++ [m]) eqn:E; [by destruct msgs|]. done.
Qed.

Lemma split_first (sep s : str) :
  sep <> [] ->
  split sep s !! 0%nat
  = Some (match partition sep s with Some (a, _) => a | None => s end).
Proof.
  intros Hne. rewrite split_unfold by done.
  by destruct (partition sep s) as [[a b]|].
Qed.

Lemma split_second (sep s : str) :
  sep <> [] ->
  split sep s !! 1%nat
  = match partition sep s with
    | Some (_, b) => split sep b !! 0%nat
    | None => None
    end.
Proof.
  intros Hne. rewrite split_unfold by done.
  by destruct (partition sep s) as [[a b]|].
Qed.

Lemma free_of_app (cs a b : str) :
  free_of cs (a +++ b) = free_of cs a && free_of cs b.
Proof. unfold free_of. apply forallb_app. Qed.

Lemma free_of_weaken (c : char) (cs s : str) :
  c ∈ cs -> free_of cs s = true -> free_of [c] s = true.
Proof.
  intros Hc. unfold free_of. apply forallb_impl. intros x Hx.
  cbn [existsb]. rewrite orb_false_r. apply negb_true_iff.
  destruct (N.eqb_spec x c) as [->|]; [|done].
  apply negb_true_iff in Hx. rewrite <- Hx. symmetry.
  apply existsb_exists. exists c. split; [by apply list_elem_of_In|apply N.eqb_refl].
Qed.

(** The piece a tag introduces: what follows the first occurrence of the
    tag, up to the first [']'], when no ['['] stands before the tag or in
    the piece. *)
Lemma tag_argument (h : char) (tag' pre arg post : str) :
  h = LBRACKET ->
  free_of [LBRACKET] pre = true ->
  free_of [LBRACKET; RBRACKET] arg = true ->
  let content := pre +++ (h :: tag') +++ arg +++ RBRACKET :: post in
  contains (h :: tag') content = true
  /\ (part ← split (h :: tag') content !! 1%nat; split [RBRACKET] part !! 0%nat)
     = Some arg.
Proof.
  intros -> Hpre Harg content.
  assert (Hp : partition (LBRACKET :: tag') content
               = Some (pre, arg +++ RBRACKET :: post)).
  { unfold content. rewrite partition_first by done.
    by rewrite partition_here, app_nil_r. }
  split.
  { rewrite partition_contains, Hp. by apply bool_decide_eq_true_2. }
  rewrite split_second, Hp by done. rewrite split_first by done.
  rewrite partition_first by (by apply (free_of_weaken _ [LBRACKET; RBRACKET]); [left|]).
  assert (Hpart : exists z,
            match
              match partition (LBRACKET :: tag') (RBRACKET :: post) with
              | Some (a, b) => Some (arg +++ a, b)
              | None => None
              end
            with
            | Some (a, _) => a
            | None => arg +++ RBRACKET :: post
            end = arg +++ RBRACKET :: z).
  { cbn [partition startswith]. vm_compute (LBRACKET =? RBRACKET). cbn [andb].
    destruct (partition _ post) as [[a b]|]; by eexists. }
  destruct Hpart as [z ->]. cbn [mbind option_bind].
  rewrite split_first by done.
  rewrite partition_first
    by (by apply (free_of_weaken _ [LBRACKET; RBRACKET]); [right; left|]).
  change (RBRACKET :: z) with ([RBRACKET] +++ z).
  by rewrite (partition_here [RBRACKET] z), app_nil_r.
Qed.

Lemma partition_free (h : char) (sep' s : str) :
  free_of [h] s = true -> partition (h :: sep') s = None.
Proof.
  intros H. rewrite <- (app_nil_r s). by rewrite partition_first.
Qed.

Section LawToolProperties.

Variable listdir : list (list N).
Variable get_text : str -> list (list N).

Local Abbreviation search_and_parse := (search_and_parse listdir get_text).
Local Abbreviation tool_executor_node := (tool_executor_node listdir get_text).

(** ** The tool node *)

(** X13. The router and the tool node agree, and the tool node's indexing
    never fails: on an empty message list both raise; when the last message
    holds one of the two tags, [route_decision] says ["tools"] and
    [tool_executor_node] returns exactly one message (every [split(...)[1]],
    [split(...)[0]] and [params[0]] it takes exists); otherwise
    [route_decision] says [END] and the tool node would return no message. *)
Theorem routed_tool_answers (messages : list (list N)) :
  match route_decision messages with
  | None => tool_executor_node messages = None
  | Some TOOLS => exists m, tool_executor_node messages = Some [m]
  | Some END => tool_executor_node messages = Some []
  end.
Proof.
  unfold route_decision, LawTool.tool_executor_node.
  destruct (last_content messages) as [content|]; [|done].
  cbn [mbind option_bind].
  assert (Hidx : forall tag, tag <> [] -> contains tag content = true ->
            exists inner, (part ← split tag content !! 1%nat;
                           split [RBRACKET] part !! 0%nat) = Some inner).
  { intros tag Hne Hc. rewrite partition_contains in Hc.
    apply bool_decide_eq_true in Hc as [[a b] Hp].
    rewrite split_second, Hp by done. rewrite split_first by done.
    cbn [mbind option_bind]. rewrite split_first by done. by eexists. }
  destruct (contains WEATHER_TAG content) eqn:Hw; cbn [orb].
  - destruct (Hidx WEATHER_TAG) as [city Hcity]; [done|done|].
    destruct (split WEATHER_TAG content !! 1%nat) as [part|]; [|done].
    cbn [mbind option_bind] in *. rewrite Hcity. by eexists.
  - destruct (contains LAW_TAG content) eqn:Hl; [|done].
    destruct (Hidx LAW_TAG) as [inner Hinner]; [done|done|].
    destruct (split LAW_TAG content !! 1%nat) as [part|]; [|done].
    cbn [mbind option_bind] in *. rewrite Hinner. cbn [mbind option_bind].
    rewrite split_first by done. cbn [mbind option_bind]. by eexists.
Qed.

(** X14. A weather tag is read back: when the last message is
    [pre [QUERY_WEATHER:city] post] with no ['['] in [pre] and neither ['[']
    nor [']'] in [city], the tool node answers [city天气晴朗。], whatever
    else the message holds (a law tag included). *)
Theorem weather_tag_parsed (messages : list (list N)) (pre city post : str) :
  free_of [LBRACKET] pre = true ->
  free_of [LBRACKET; RBRACKET] city = true ->
  tool_executor_node
    (messages ++ [pre +++ WEATHER_TAG +++ city +++ RBRACKET :: post])
  = Some [city +++ u "天气晴朗。"].
Proof.
  intros Hpre Hcity. unfold LawTool.tool_executor_node.
  rewrite last_content_app. cbn [mbind option_bind].
  destruct (tag_argument LBRACKET (tl WEATHER_TAG) pre city post eq_refl Hpre Hcity)
    as [Hc Harg].
  change (LBRACKET :: tl WEATHER_TAG) with WEATHER_TAG in Hc, Harg.
  rewrite Hc.
  destruct (split WEATHER_TAG _ !! 1%nat) as [part|]; [|done].
  cbn [mbind option_bind] in *. by rewrite Harg.
Qed.

(** X15. A law tag is read back: when the last message holds no weather tag
    and is [pre [PARSE_LAW:keyword] post] or [pre [PARSE_LAW:keyword,target]
    post], with no ['['] in [pre] and none of ['['], [']'], [','] in the
    keyword and the target, the tool node answers with
    [search_and_parse(keyword, target)], the target being [None] when the
    tag has no comma. *)
Theorem law_tag_parsed (messages : list (list N)) (pre keyword post : str)
    (target : option str) :
  free_of [LBRACKET] pre = true ->
  free_of [LBRACKET; RBRACKET; COMMA] keyword = true ->
  free_of [LBRACKET; RBRACKET; COMMA] (default [] target) = true ->
  let args := keyword +++ match target with Some t => COMMA :: t | None => [] end in
  let content := pre +++ LAW_TAG +++ args +++ RBRACKET :: post in
  contains WEATHER_TAG content = false ->
  tool_executor_node (messages ++ [content])
  = Some [search_and_parse keyword target].
Proof.
  intros Hpre Hkw Htg args content Hw. unfold LawTool.tool_executor_node.
  rewrite last_content_app. cbn [mbind option_bind]. rewrite Hw.
  assert (Hk : forall c, c ∈ [LBRACKET; RBRACKET; COMMA] ->
                 free_of [c] keyword = true /\ free_of [c] (default [] target) = true).
  { intros c Hc. split; by apply (free_of_weaken c [LBRACKET; RBRACKET; COMMA]). }
  assert (Hargs : free_of [LBRACKET; RBRACKET] args = true).
  { unfold args. rewrite free_of_app. apply andb_true_iff. split.
    - revert Hkw. unfold free_of. apply forallb_impl. intros x.
      cbn [existsb]. intros H%negb_true_iff. apply negb_true_iff.
      apply orb_false_iff in H as [H1 [H2 _]%orb_false_iff].
      by rewrite H1, H2.
    - destruct target as [t|]; [|done]. cbn [default from_option id] in Htg.
      cbn [free_of forallb]. apply andb_true_iff. split; [done|].
      revert Htg. unfold free_of. apply forallb_impl. intros x.
      cbn [existsb]. intros H%negb_true_iff. apply negb_true_iff.
      apply orb_false_iff in H as [H1 [H2 _]%orb_false_iff].
      by rewrite H1, H2. }
  destruct (tag_argument LBRACKET (tl LAW_TAG) pre args post eq_refl Hpre Hargs)
    as [Hc Harg].
  change (LBRACKET :: tl LAW_TAG) with LAW_TAG in Hc, Harg.
  fold content in Hc, Harg. rewrite Hc.
  destruct (split LAW_TAG content !! 1%nat) as [part|]; [|done].
  cbn [mbind option_bind] in *. rewrite Harg. cbn [mbind option_bind].
  destruct (Hk COMMA) as [Hkc Htc]; [by right; right; left|].
  unfold args. destruct target as [t|]; cbn [default from_option id] in *.
  - rewrite (split_unfold [COMMA]) by done.
    rewrite partition_first by done.
    change (COMMA :: t) with ([COMMA] +++ t). rewrite partition_here, app_nil_r.
    rewrite (split_unfold [COMMA] t) by done. rewrite partition_free by done.
    done.
  - rewrite app_nil_r. rewrite (split_unfold [COMMA]) by done.
    rewrite partition_free by done. done.
Qed.

(** ** The search *)

(** X16. Only the first matching file counts: when no name in the listing
    contains the keyword and ends in [.pdf], the answer is the not-found
    message, whatever the target; otherwise the answer is that of the first
    such name in listing order alone - the files listed after it are never
    opened. *)
Theorem first_law_file_answers (keyword : str) (target : option str)
    (before after : list (list N)) (f : str) :
  forallb (fun x => negb (is_law_file keyword x)) before = true ->
  is_law_file keyword f = true ->
  LawTool.search_and_parse before get_text keyword target
  = u "未找到包含 '" +++ keyword +++ u "' 的法律文件。"
  /\ LawTool.search_and_parse (before ++ f :: after) get_text keyword target
     = LawTool.search_and_parse [f] get_text keyword target.
Proof.
  intros Hb Hf.
  assert (Hfilter : forall l,
            List.filter (fun f => contains keyword f && endswith (u ".pdf") f)
                        (before ++ l)
            = List.filter (fun f => contains keyword f && endswith (u ".pdf") f) l).
  { intros l. induction before as [|x before IH]; [done|].
    cbn [forallb] in Hb. apply andb_true_iff in Hb as [Hx Hb].
    apply negb_true_iff in Hx. unfold is_law_file in Hx.
    cbn [app List.filter]. rewrite Hx. auto. }
  unfold LawTool.search_and_parse. split.
  - rewrite <- (app_nil_r before) at 1. by rewrite Hfilter.
  - rewrite Hfilter. cbn [List.filter]. unfold is_law_file in Hf. by rewrite Hf.
Qed.

Lemma pieces_concat (s : str) : concat (pieces s) = s.
Proof.
  induction s as [|c s IH]; [done|]. cbn [pieces].
  destruct (clause_start s).
  - cbn [concat app]. by rewrite IH.
  - destruct (pieces s) as [|p ps]; cbn [concat app] in *; by rewrite <- IH.
Qed.

Lemma clause_start_NL (s : str) :
  clause_start s = true -> exists s', s = NL :: s'.
Proof.
  destruct s as [|c s]; [done|]. cbn [clause_start].
  intros [->%N.eqb_eq _]%andb_true_iff. by eexists.
Qed.

(** A cut that falls on a newline or at the end leaves a newline-free head
    of the text whole. *)
Lemma head_before_cut (m p r rest : str) :
  free_of [NL] m = true -> p +++ r = m +++ rest ->
  r = [] \/ (exists r', r = NL :: r') ->
  r = [] /\ (exists z, m = p +++ z) \/ exists z, p = m +++ z.
Proof.
  revert p. induction m as [|x m IH]; intros p Hm E Hr; [right; by exists p|].
  cbn [free_of forallb existsb] in Hm. apply andb_true_iff in Hm as [Hx Hm].
  rewrite orb_false_r in Hx. apply negb_true_iff, N.eqb_neq in Hx.
  destruct p as [|y p].
  - cbn [app] in E. destruct Hr as [->|[r' ->]].
    + left. split; [done|]. by eexists.
    + cbn [app] in E. injection E as E _. congruence.
  - cbn [app] in E. injection E as -> E.
    destruct (IH p Hm E Hr) as [[-> [z ->]]|[z ->]].
    + left. split; [done|]. by exists z.
    + right. by exists z.
Qed.

Lemma cn_class_not_NL (g : str) : forallb cn_class g = true -> free_of [NL] g = true.
Proof.
  unfold free_of. apply forallb_impl. intros c Hc.
  cbn [existsb]. rewrite orb_false_r. apply negb_true_iff, N.eqb_neq. by intros ->.
Qed.

(** A piece that begins where the lookahead holds, and ends at a cut or at
    the end of the text, itself begins with the marker. *)
Lemma clause_start_piece (p r : str) :
  p <> [] -> clause_start (p +++ r) = true ->
  r = [] \/ clause_start r = true ->
  clause_start p = true.
Proof.
  intros Hne Hs Hr. destruct p as [|c p]; [done|].
  cbn [app clause_start] in Hs. apply andb_true_iff in Hs as [Hc Hm].
  apply bool_decide_eq_true in Hm as [g Hg].
  destruct (match_header_Some _ _ _ _ Hg) as (Hgne & Hall & rest & E).
  assert (Hr' : r = [] \/ exists r', r = NL :: r').
  { destruct Hr as [->|Hr]; [by left|right; by apply clause_start_NL]. }
  assert (Hfree : free_of [NL] (DI :: g +++ [TIAO]) = true).
  { cbn [free_of forallb]. fold (free_of [NL] (g +++ [TIAO])).
    rewrite free_of_app, (cn_class_not_NL g Hall). done. }
  replace (DI :: g +++ TIAO :: rest) with ((DI :: g +++ [TIAO]) +++ rest) in E
    by (cbn [app]; by rewrite <- app_assoc).
  destruct (head_before_cut _ p r rest Hfree E Hr') as [[-> [z Hz]]|[z ->]].
  - rewrite app_nil_r in E. cbn [clause_start]. rewrite Hc. cbn [andb].
    apply bool_decide_eq_true. exists g. rewrite E.
    replace ((DI :: g +++ [TIAO]) +++ rest) with (DI :: g +++ TIAO :: rest)
      by (cbn [app]; by rewrite <- app_assoc).
    by apply match_header_intro.
  - cbn [clause_start]. rewrite Hc. cbn [andb].
    apply bool_decide_eq_true. exists g.
    replace ((DI :: g +++ [TIAO]) +++ z) with (DI :: g +++ TIAO :: z)
      by (cbn [app]; by rewrite <- app_assoc).
    by apply match_header_intro.
Qed.

Lemma pieces_shape (s : str) :
  exists p ps, pieces s = p :: ps
    /\ (s <> [] -> p <> [])
    /\ (ps = [] \/ clause_start (concat ps) = true)
    /\ Forall (fun q => clause_start q = true) ps.
Proof.
  induction s as [|c s IH]; [exists [], []; by repeat split; [|left|]|].
  destruct IH as (p & ps & Hp & Hne & Hr & Hall). cbn [pieces].
  pose proof (pieces_concat s) as Hcat. rewrite Hp in Hcat. cbn [concat] in Hcat.
  destruct (clause_start s) eqn:Hs.
  - exists [c], (p :: ps). rewrite Hp. split; [done|]. split; [done|].
    split; [right; cbn [concat]; by rewrite Hcat|].
    constructor; [|done].
    apply (clause_start_piece p (concat ps)).
    + apply Hne. intros ->. done.
    + by rewrite Hcat.
    + destruct Hr as [->|Hr]; [by left|by right].
  - rewrite Hp. exists (c :: p), ps. by repeat split.
Qed.

Lemma split_clauses_pieces (s : str) :
  concat (split_clauses s) = s
  /\ Forall (fun q => clause_start q = true) (tail (split_clauses s)).
Proof.
  unfold split_clauses. destruct (pieces_shape s) as (p & ps & Hp & Hne & Hr & Hall).
  pose proof (pieces_concat s) as Hcat.
  destruct (clause_start s) eqn:Hs.
  - cbn [concat app tail]. split; [done|]. rewrite Hp. constructor; [|done].
    rewrite Hp in Hcat. cbn [concat] in Hcat.
    apply (clause_start_piece p (concat ps)).
    + apply Hne. by intros ->.
    + by rewrite Hcat.
    + destruct Hr as [->|Hr]; [by left|by right].
  - split; [done|]. by rewrite Hp.
Qed.

(** X17. Splitting into clauses loses nothing and cuts at markers only: the
    pieces of [re.split] concatenate to the text, and every piece after the
    first begins with a newline and an article marker
    [第<chinese numeral>条]. *)
Theorem split_clauses_lossless (s : str) :
  concat (split_clauses s) = s
  /\ Forall (fun q => clause_start q = true) (tail (split_clauses s)).
Proof. apply split_clauses_pieces. Qed.

Lemma startswith_before_cut (t a b : str) :
  free_of [NL] t = true -> b = [] \/ (exists b', b = NL :: b') ->
  startswith t (a +++ b) = true -> startswith t a = true.
Proof.
  intros Ht Hb. revert a. induction t as [|x t IH]; intros a; [done|].
  cbn [free_of forallb existsb] in Ht. apply andb_true_iff in Ht as [Hx Ht].
  rewrite orb_false_r in Hx. apply negb_true_iff in Hx.
  destruct a as [|y a]; cbn [app].
  - destruct Hb as [->|[b' ->]]; [done|]. cbn [startswith].
    rewrite Hx. done.
  - cbn [startswith]. intros [-> H]%andb_true_iff. cbn [andb]. by apply IH.
Qed.

Lemma contains_before_cut (t a b : str) :
  free_of [NL] t = true -> b = [] \/ (exists b', b = NL :: b') ->
  contains t (a +++ b) = contains t a || contains t b.
Proof.
  intros Ht Hb. induction a as [|c a IH].
  - cbn [app]. destruct t as [|x t]; [by destruct b|].
    cbn [contains startswith orb]. done.
  - cbn [app contains]. rewrite IH.
    destruct (startswith t (c :: a +++ b)) eqn:E.
    + change (c :: a +++ b) with ((c :: a) +++ b) in E.
      by rewrite (startswith_before_cut t (c :: a) b Ht Hb E).
    + destruct (startswith t (c :: a)) eqn:E'; [|done].
      pose proof (startswith_app_r t (c :: a) b E') as H. cbn [app] in H.
      congruence.
Qed.

Lemma contains_pieces (t : str) (ps : list (list N)) :
  free_of [NL] t = true ->
  Forall (fun q => clause_start q = true) (tail ps) ->
  ps <> [] ->
  contains t (concat ps) = existsb (contains t) ps.
Proof.
  intros Ht. induction ps as [|p ps IH]; [done|]. intros Hall _.
  cbn [tail] in Hall. cbn [concat existsb].
  destruct ps as [|q ps].
  - cbn [concat existsb]. rewrite app_nil_r. by rewrite orb_false_r.
  - rewrite contains_before_cut; [|done|].
    + f_equal. apply IH; [|done]. cbn [tail]. by inversion Hall.
    + right. inversion Hall as [|?? Hq _]. apply clause_start_NL in Hq as [q' ->].
      by eexists.
Qed.

(** X18. A target without a newline is found exactly when the document
    holds it: for the first matching file and a non-empty target that
    contains no newline, [search_and_parse] answers with the not-found
    message when the text of the file does not contain the target, and
    otherwise with the stripped text of the first clause that contains it -
    which need not be the clause the target heads. *)
Theorem search_finds_target (keyword target f : str) :
  List.find (is_law_file keyword) listdir = Some f ->
  target <> [] -> free_of [NL] target = true ->
  let full_text := concat (get_text f) in
  if contains target full_text then
    exists c, List.find (contains target) (split_clauses full_text) = Some c
      /\ search_and_parse keyword (Some target)
         = u "已在《" +++ f +++ u "》中找到：" +++ NL :: strip c
  else
    search_and_parse keyword (Some target)
    = u "文件中未找到 " +++ target +++ u "。".
Proof.
  intros Hf Hne Ht full_text.
  assert (Hfiles : exists rest,
            List.filter (fun f => contains keyword f && endswith (u ".pdf") f) listdir
            = f :: rest).
  { clear -Hf. induction listdir as [|x l IH]; [done|].
    cbn [List.find List.filter] in *. unfold is_law_file in Hf at 1.
    destruct (contains keyword x && endswith (u ".pdf") x).
    - injection Hf as ->. by eexists.
    - by apply IH. }
  destruct Hfiles as [rest Hfiles].
  unfold LawTool.search_and_parse. rewrite Hfiles. cbv zeta. fold full_text.
  assert (truthy (Some target) = true) as -> by by destruct target.
  cbn [default from_option id].
  destruct (split_clauses_pieces full_text) as [Hcat Hall].
  assert (Hps : split_clauses full_text <> []).
  { unfold split_clauses. destruct (clause_start full_text); [done|].
    destruct (pieces_shape full_text) as (p & ps & -> & _). done. }
  assert (Hct : contains target full_text
                = existsb (contains target) (split_clauses full_text)).
  { rewrite <- (contains_pieces target _ Ht Hall Hps). by rewrite Hcat. }
  rewrite Hct.
  destruct (List.find (contains target) (split_clauses full_text)) as [c|] eqn:E.
  - destruct (find_some _ _ E) as [Hin Hc].
    assert (existsb (contains target) (split_clauses full_text) = true) as ->.
    { apply existsb_exists. by exists c. }
    by exists c.
  - assert (existsb (contains target) (split_clauses full_text) = false) as ->; [|done].
    apply not_true_is_false. intros (c & Hin & Hc)%existsb_exists.
    by rewrite (find_none _ _ E c Hin) in Hc.
Qed.

End LawToolProperties.

(** ** Concrete instances *)

Lemma zero_numeral_not_header_witness :
  let raw := u "第一百零五条 公司" in
  let st := mk_state (Some (u "/gsf/c1")) (Some (u "/gsf/c1/a2")) true in
  c_match (strip raw) = None
  /\ a_match (strip raw) = None
  /\ process_item ascii_lower is_ascii_digit GSF (st, article_2) (Some raw)
     = (st, if noise is_ascii_digit (strip raw) then article_2
            else append_content article_2 (fragment raw) (u "/gsf/c1/a2")).
Proof.
  intros raw st.
  apply (zero_numeral_not_header ascii_lower is_ascii_digit GSF st article_2 raw
           (u "一百") (u "五条 公司") (u "/gsf/c1/a2")).
  - vm_compute. reflexivity.
  - vm_compute. reflexivity.
  - reflexivity.
  - reflexivity.
  - vm_compute. discriminate.
Defined.

(** Article 105 after article 2: its header line ends up in article 2. *)
Example article_105_pass :
  legal_nodes (pass empty_db [Some (u "第二条 A"); Some (u "第一百零五条 公司")])
  = {[ u "/gsf/c1/a2" := mk_node GSF (u "section") 2
                                 (u "第二条 A
第一百零五条公司") (Some (u "/gsf/c1")) ]}.
Proof. vm_compute. reflexivity. Qed.

Lemma blank_block_appends_newline_witness :
  let raw := u "  " in
  let st := mk_state (Some (u "/gsf/c1")) (Some (u "/gsf/c1/a2")) true in
  let a := u "/gsf/c1/a2" in
  let r := process_item ascii_lower is_ascii_digit GSF (st, article_2) (Some raw) in
  strip raw = []
  /\ r = (st, append_content article_2 [NL] a)
  /\ content <$> legal_nodes (snd r) !! a
     = (fun c => c +++ [NL]) <$> (content <$> legal_nodes article_2 !! a)
  /\ process_item ascii_lower is_ascii_digit GSF (st, article_2) (Some [])
     = (st, article_2)
  /\ process_item ascii_lower is_ascii_digit GSF (st, article_2) None
     = (st, article_2).
Proof.
  intros raw st a.
  apply (blank_block_appends_newline ascii_lower is_ascii_digit GSF st article_2
           raw a).
  - vm_compute. discriminate.
  - vm_compute. reflexivity.
  - reflexivity.
  - reflexivity.
  - vm_compute. discriminate.
Defined.

(** An empty text between two blocks leaves no trace; a blank one leaves an
    empty line. *)
Example blank_and_empty_pass :
  content <$> legal_nodes
    (pass empty_db [Some (u "第二条 A"); Some []; None; Some (u "内容B")])
    !! u "/gsf/c1/a2"
  = Some (u "第二条 A
内容B")
  /\ content <$> legal_nodes
       (pass empty_db [Some (u "第二条 A"); Some (u "  "); Some (u "内容B")])
       !! u "/gsf/c1/a2"
     = Some (u "第二条 A

内容B").
Proof. vm_compute. split; reflexivity. Qed.

Lemma noise_extends_witness :
  noise is_ascii_digit (u "第 3 页" +++ u " 公司应当依法纳税") = true.
Proof.
  apply (noise_extends is_ascii_digit (u "第 3 页") (u " 公司应当依法纳税")).
  vm_compute. reflexivity.
Defined.

Lemma preamble_discarded_witness :
  let st := init_state in
  let rawc := u "第一章 总则" in
  let raws := [u "为了规范公司的组织和行为"; u "制定本法"] in
  run ascii_lower is_ascii_digit GSF (st, empty_db) (map Some raws) = (st, empty_db)
  /\ (let c := chapter_uri ascii_lower GSF (cn_to_int (Some (u "一"))) in
      let r := run ascii_lower is_ascii_digit GSF (st, empty_db)
                   (Some rawc :: map Some raws) in
      fst r = mk_state (Some c) (Some c) false
      /\ snd r = _save_node empty_db GSF c (u "chapter") (cn_to_int (Some (u "一")))
                            (strip rawc) None
      /\ content <$> legal_nodes (snd r) !! c = Some (strip rawc)).
Proof.
  intros st rawc raws.
  apply (preamble_discarded ascii_lower is_ascii_digit GSF st empty_db rawc
           (u "一") raws).
  - reflexivity.
  - vm_compute. reflexivity.
  - vm_compute. reflexivity.
  - vm_compute. reflexivity.
  - vm_compute. reflexivity.
Defined.

(** A chapter, its preamble, then the first article: the preamble is in no
    node. *)
Example chapter_preamble_pass :
  legal_nodes (pass empty_db [Some (u "第一章 总则"); Some (u "为了规范公司的组织和行为");
                              Some (u "第一条 甲")])
  = {[ u "/gsf/c1" := mk_node GSF (u "chapter") 1 (u "第一章 总则") None;
       u "/gsf/c1/a1" := mk_node GSF (u "section") 1 (u "第一条 甲")
                                 (Some (u "/gsf/c1")) ]}.
Proof. vm_compute. reflexivity. Qed.

Lemma text_after_chapter_header_witness :
  let raw := u "第二章 设立" in
  let raws := [u "本章规定公司的设立"] in
  let st := mk_state (Some (u "/gsf/c1")) (Some (u "/gsf/c1/a2")) true in
  let r := run ascii_lower is_ascii_digit GSF (st, article_2)
               (Some raw :: map Some raws) in
  let c := chapter_uri ascii_lower GSF (cn_to_int (Some (u "二"))) in
  current_c_uri (fst r) = Some c
  /\ active_uri (fst r) = Some c
  /\ content <$> legal_nodes (snd r) !! c
     = Some (strip raw +++ concat (map fragment (kept is_ascii_digit raws))).
Proof.
  intros raw raws st.
  apply (text_after_chapter_header ascii_lower is_ascii_digit GSF st article_2
           raw (u "二") raws).
  - reflexivity.
  - vm_compute. reflexivity.
  - vm_compute. reflexivity.
  - vm_compute. reflexivity.
Defined.

Lemma state_shape_kept_witness :
  state_shape ascii_lower GSF
    (fst (run ascii_lower is_ascii_digit GSF (init_state, empty_db)
              [Some (u "第一章 总则"); Some (u "第一条 甲"); Some (u "内容")])).
Proof.
  apply (state_shape_kept ascii_lower is_ascii_digit GSF init_state empty_db).
  vm_compute. split; reflexivity.
Defined.

Lemma entered_body_stays_witness :
  has_entered_body
    (fst (run ascii_lower is_ascii_digit GSF
              (mk_state (Some (u "/gsf/c1")) (Some (u "/gsf/c1/a2")) true, article_2)
              [Some (u "第二章 设立 ... 目录"); Some (u "内容")])) = true.
Proof.
  apply (entered_body_stays ascii_lower is_ascii_digit GSF
           (mk_state (Some (u "/gsf/c1")) (Some (u "/gsf/c1/a2")) true) article_2).
  reflexivity.
Defined.

Lemma pass_keeps_rows_witness :
  exists n,
    legal_nodes (pass article_2 [Some (u "第二条 B"); Some (u "第三条 C")])
      !! u "/gsf/c1/a2" = Some n
    /\ doc_id n = doc_id (mk_node GSF (u "section") 2 (u "第二条 A") (Some (u "/gsf/c1")))
    /\ num_val n = num_val (mk_node GSF (u "section") 2 (u "第二条 A") (Some (u "/gsf/c1"))).
Proof.
  apply (pass_keeps_rows ascii_lower is_ascii_digit article_2
           [Some (u "第二条 B"); Some (u "第三条 C")] GSF gsf_metadata).
  vm_compute. reflexivity.
Defined.

Lemma pass_touches_own_addresses_witness :
  legal_nodes (parse_and_store ascii_lower is_ascii_digit article_2
                 [Some (u "第一章 总则"); Some (u "第二条 B")] (u "ZQF") gsf_metadata)
    !! u "/gsf/c1/a2"
  = legal_nodes article_2 !! u "/gsf/c1/a2".
Proof.
  apply (pass_touches_own_addresses ascii_lower is_ascii_digit article_2
           [Some (u "第一章 总则"); Some (u "第二条 B")] (u "ZQF") gsf_metadata).
  vm_compute. reflexivity.
Defined.

Lemma weather_tag_parsed_witness :
  tool_executor_node sample_listing sample_pages
    ([u "北京天气"] ++ [u "好的 " +++ WEATHER_TAG +++ u "北京" +++ RBRACKET :: u " 请稍候"])
  = Some [u "北京" +++ u "天气晴朗。"].
Proof.
  apply (weather_tag_parsed sample_listing sample_pages [u "北京天气"]
           (u "好的 ") (u "北京") (u " 请稍候")).
  - vm_compute. reflexivity.
  - vm_compute. reflexivity.
Defined.

Lemma law_tag_parsed_witness :
  let keyword := u "反洗钱" in
  let target := Some (u "第三条") in
  let args := keyword +++ match target with Some t => COMMA :: t | None => [] end in
  let content := [] +++ LAW_TAG +++ args +++ RBRACKET :: [] in
  tool_executor_node sample_listing sample_pages ([u "解析反洗钱法第3条"] ++ [content])
  = Some [search_and_parse sample_listing sample_pages keyword target].
Proof.
  intros keyword target.
  apply (law_tag_parsed sample_listing sample_pages [u "解析反洗钱法第3条"]
           [] keyword [] target).
  - reflexivity.
  - vm_compute. reflexivity.
  - vm_compute. reflexivity.
  - vm_compute. reflexivity.
Defined.

(** The system prompt's example reply, end to end: the answer is the first
    clause that mentions the target, here article 1, which refers to it. *)
Example prompt_example_answer :
  tool_executor_node sample_listing sample_pages
    [u "解析反洗钱法第3条"; u "[PARSE_LAW:反洗钱,第三条]"]
  = Some [u "已在《反洗钱法.pdf》中找到：
第一条 为了预防洗钱活动，依照第三条"].
Proof. vm_compute. reflexivity. Qed.

Lemma first_law_file_answers_witness :
  search_and_parse [u "notes.txt"] sample_pages (u "反洗钱") None
  = u "未找到包含 '" +++ u "反洗钱" +++ u "' 的法律文件。"
  /\ search_and_parse ([u "notes.txt"] ++ u "反洗钱法.pdf" :: [u "反洗钱法实施细则.pdf"])
       sample_pages (u "反洗钱") None
     = search_and_parse [u "反洗钱法.pdf"] sample_pages (u "反洗钱") None.
Proof.
  apply (first_law_file_answers sample_pages (u "反洗钱") None [u "notes.txt"]
           [u "反洗钱法实施细则.pdf"] (u "反洗钱法.pdf")).
  - vm_compute. reflexivity.
  - vm_compute. reflexivity.
Defined.

Lemma search_finds_target_witness :
  let target := u "金融机构" in
  let full_text := concat (sample_pages (u "反洗钱法.pdf")) in
  if contains target full_text then
    exists c, List.find (contains target) (split_clauses full_text) = Some c
      /\ search_and_parse sample_listing sample_pages (u "反洗钱") (Some target)
         = u "已在《" +++ u "反洗钱法.pdf" +++ u "》中找到：" +++ NL :: strip c
  else
    search_and_parse sample_listing sample_pages (u "反洗钱") (Some target)
    = u "文件中未找到 " +++ target +++ u "。".
Proof.
  intros target.
  apply (search_finds_target sample_listing sample_pages (u "反洗钱") target
           (u "反洗钱法.pdf")).
  - vm_compute. reflexivity.
  - vm_compute. discriminate.
  - vm_compute. reflexivity.
Defined.

(** A clause cut in the middle of a page boundary is still one clause. *)
Example split_clauses_sample :
  split_clauses (concat (sample_pages [])) =
  [u "总则"; u "
第一条 为了预防洗钱活动，依照第三条"; u "
第二条 本法所称反洗钱"; u "
第三条 金融机构"].
Proof. vm_compute. reflexivity. Qed.
